(** * mbta2rss: MBTA alerts rendered as an RSS feed or as Markdown

    A shallow embedding of [mbta2rss.py].  Python strings are [string],
    the values decoded from the API's JSON are [value], dictionaries are
    [gmap string value], and the script's effects (standard output, the
    HTTP requests it issues, exceptions and [exit]) are threaded through
    the monad [M].  The first part holds the definitions, the second part
    the properties proved about them. *)

From Stdlib Require Import Ascii.
From stdpp Require Import gmap strings list fin_maps.

Local Open Scope Z_scope.
Local Open Scope nat_scope.

(* ================================================================== *)
(** ** Strings *)

Definition nl : string := String "010"%char "".
Definition dquote : string := String "034"%char "".

(** [str.replace(old, new)] for a non-empty [old]: scan left to right,
    replace each occurrence and resume after it ([skip] counts the
    characters of the occurrence still to be dropped). *)
Fixpoint replace_go (old new : string) (skip : nat) (s : string) : string :=
  match s with
  | "" => ""
  | String c s' =>
      match skip with
      | S k => replace_go old new k s'
      | O =>
          if String.prefix old s
          then new +:+ replace_go old new (String.length old - 1) s'
          else String c (replace_go old new 0 s')
      end
  end.

(** With an empty [old], Python puts [new] before every character and at
    the end. *)
Fixpoint interleave (new s : string) : string :=
  match s with
  | "" => new
  | String c s' => new +:+ String c (interleave new s')
  end.

Definition replace (old new s : string) : string :=
  match old with
  | "" => interleave new s
  | _ => replace_go old new 0 s
  end.

(** [html.escape(s)] of the standard library, with its default
    [quote=True]: five successive replacements, the ampersand first. *)
Definition html_escape (s : string) : string :=
  let s := replace "&" "&amp;" s in
  let s := replace "<" "&lt;" s in
  let s := replace ">" "&gt;" s in
  let s := replace dquote "&quot;" s in
  let s := replace "'" "&#x27;" s in
  s.

(** [s.split(sep)] for a one-character separator. *)
Fixpoint split (sep : ascii) (s : string) : list string :=
  match s with
  | "" => [""]
  | String c s' =>
      if decide (c = sep) then "" :: split sep s'
      else match split sep s' with
           | h :: t => String c h :: t
           | [] => [String c ""]
           end
  end.

(* ================================================================== *)
(** ** Python values, exceptions, effects *)

(** What [response.json()] can return.  A number is kept as its literal:
    the script never computes with one. *)
#[warnings="-register-all"]
Inductive value : Type :=
  | VNone
  | VBool (b : bool)
  | VNum (lit : string)
  | VStr (s : string)
  | VList (l : list value)
  | VDict (m : gmap string value).

Inductive exn : Type :=
  | SystemExit (code : Z)
  | NameError (name : string)
  | KeyError (key : string)
  | TypeError
  | AttributeError
  | ValueError
  | RequestError.

Inductive outcome (A : Type) : Type :=
  | Done (a : A)
  | Raised (e : exn).
Arguments Done {A} a.
Arguments Raised {A} e.

(** The arguments of one [print_item] call. *)
Record item : Type := Item {
  header : value;
  long_header : value;
  desc : value;
  effect : value;
  date : value;
  categories : list value;
  guid : value
}.

(** Driver methods as they are invoked; kept in the world as a history
    that no code reads. *)
Inductive call : Type :=
  | CallStart
  | CallItem (it : item)
  | CallEnd.

Record world : Type := World {
  stdout : string;
  requests : list string;
  calls : list call
}.

Definition M (A : Type) : Type := world → outcome A * world.

Global Instance outcome_ret : MRet outcome := @Done.
Global Instance outcome_bind : MBind outcome := λ A B f m,
  match m with
  | Done a => f a
  | Raised e => Raised e
  end.

Global Instance M_ret : MRet M := λ A a w, (Done a, w).
Global Instance M_bind : MBind M := λ A B f m w,
  match m w with
  | (Done a, w') => f a w'
  | (Raised e, w') => (Raised e, w')
  end.

Definition raise {A : Type} (e : exn) : M A := λ w, (Raised e, w).
Definition lift {A : Type} (o : outcome A) : M A := λ w, (o, w).

Definition print (s : string) : M unit := λ w,
  (Done tt, World (stdout w +:+ s +:+ nl) (requests w) (calls w)).

Definition log_call (c : call) : M unit := λ w,
  (Done tt, World (stdout w) (requests w) (calls w ++ [c])).

Fixpoint for_each {A : Type} (body : A → M unit) (l : list A) : M unit :=
  match l with
  | [] => mret tt
  | x :: l' => body x;; for_each body l'
  end.

(** [s + v] and [v + s] for a string [s]: a [TypeError] unless [v] is a
    string too. *)
Definition str_add (s : string) (v : value) : outcome string :=
  match v with
  | VStr t => Done (s +:+ t)
  | _ => Raised TypeError
  end.

Definition add_str (v : value) (s : string) : outcome string :=
  match v with
  | VStr t => Done (t +:+ s)
  | _ => Raised TypeError
  end.

(** [v.replace(old, new)]: only a string has the method. *)
Definition method_replace (v : value) (old new : string) : outcome string :=
  match v with
  | VStr s => Done (replace old new s)
  | _ => Raised AttributeError
  end.

(** [html.escape(v)] calls [v.replace]. *)
Definition escape (v : value) : outcome string :=
  match v with
  | VStr s => Done (html_escape s)
  | _ => Raised AttributeError
  end.

(** [v[key]] *)
Definition subscript (v : value) (key : string) : outcome value :=
  match v with
  | VDict m =>
      match m !! key with
      | Some x => Done x
      | None => Raised (KeyError key)
      end
  | _ => Raised TypeError
  end.

Fixpoint characters (s : string) : list value :=
  match s with
  | "" => []
  | String c s' => VStr (String c "") :: characters s'
  end.

(** [for x in v]: the elements of a list, the characters of a string, the
    keys of a dictionary (in the order of [map_to_list]: a [gmap] does not
    keep the insertion order). *)
Definition iterate (v : value) : outcome (list value) :=
  match v with
  | VList l => Done l
  | VStr s => Done (characters s)
  | VDict m => Done ((λ kv, VStr kv.1) <$> map_to_list m)
  | _ => Raised TypeError
  end.

(* ================================================================== *)
(** ** The output drivers *)

Definition DEFAULT_TITLE : string := "Unofficial MBTA Alert Feed".
Definition DEFAULT_DESC : string :=
  "An unofficial feed for public transit alerts in the Boston area.".
Definition DEFAULT_LANG : string := "en_us".
Definition DEFAULT_URL : string := "https://github.com/darklands1/mbta-rss".
Definition DEFAULT_DATATYPE : string := "alerts".

(** The fields [__init__] stores in [self]. *)
Record feed : Type := Feed {
  self_title : string;
  self_desc : string;
  self_lang : string;
  self_url : string
}.

Inductive driver : Type :=
  | MarkdownAlertDriver (self : feed)
  | RSSAlertDriver (self : feed).

(** The module-level names the functions read: [title], [desc] and
    [driver] are bound only by the [__main__] block ([None] here is a name
    that is not bound); [API_KEY] is bound to Python's [None] or a
    string. *)
Record globals : Type := Globals {
  glob_title : option string;
  glob_desc : option string;
  glob_driver : option driver;
  API_KEY : option string
}.

Definition global {A : Type} (name : string) (x : option A) : M A :=
  match x with
  | Some a => mret a
  | None => raise (NameError name)
  end.

Definition MarkdownAlertDriver_print_start (self : feed) (g : globals) : M unit :=
  title ← global "title" (glob_title g);
  print ("# " +:+ title);;
  desc ← global "desc" (glob_desc g);
  print desc.

Definition MarkdownAlertDriver_print_item (self : feed) (it : item) : M unit :=
  s ← lift (str_add "## " (header it));
  s ← lift (str_add (s +:+ " (added ") (date it));
  print (s +:+ ")");;
  b ← lift (add_str (long_header it) (nl +:+ nl));
  d ← lift (method_replace (desc it) nl (nl +:+ nl));
  print ((b +:+ d) +:+ (nl +:+ nl)).

Definition MarkdownAlertDriver_print_end (self : feed) : M unit := mret tt.

Definition RSSAlertDriver_print_start (self : feed) : M unit :=
  print ("<?xml version=" +:+ dquote +:+ "1.0" +:+ dquote +:+ " encoding="
         +:+ dquote +:+ "utf-8" +:+ dquote +:+ "?>");;
  print ("<rss version=" +:+ dquote +:+ "2.0" +:+ dquote +:+ " xmlns:atom="
         +:+ dquote +:+ "http://www.w3.org/2005/Atom" +:+ dquote +:+ ">");;
  print "<channel>";;
  print (("<title>" +:+ self_title self) +:+ "</title>");;
  print (("<description>" +:+ self_desc self) +:+ "</description>");;
  print (("<language>" +:+ self_lang self) +:+ "</language>");;
  print (("<link>" +:+ self_url self) +:+ "</link>").

Fixpoint print_categories (cs : list value) : M unit :=
  match cs with
  | [] => mret tt
  | category :: cs' =>
      s ← lift (str_add "<category>" category);
      print (s +:+ "</category>");;
      print_categories cs'
  end.

Definition RSSAlertDriver_print_item (self : feed) (it : item) : M unit :=
  l ← lift (escape (long_header it));
  d ← lift (escape (desc it));
  let content := ((("<pre>" +:+ l) +:+ (nl +:+ nl)) +:+ d) +:+ "</pre>" in
  print "<item>";;
  h ← lift (escape (header it));
  print (("<title>" +:+ h) +:+ "</title>");;
  print (("<description>" +:+ content) +:+ "</description>");;
  s ← lift (str_add "<pubDate>" (date it));
  print (s +:+ "</pubDate>");;
  s ← lift (str_add "<guid>" (guid it));
  print (s +:+ "</guid>");;
  print_categories (categories it);;
  print "</item>".

Definition RSSAlertDriver_print_end (self : feed) : M unit :=
  print "</channel>";;
  print "</rss>".

(** Method dispatch on the driver object. *)
Definition print_start (d : driver) (g : globals) : M unit :=
  log_call CallStart;;
  match d with
  | MarkdownAlertDriver self => MarkdownAlertDriver_print_start self g
  | RSSAlertDriver self => RSSAlertDriver_print_start self
  end.

Definition print_item (d : driver) (it : item) : M unit :=
  log_call (CallItem it);;
  match d with
  | MarkdownAlertDriver self => MarkdownAlertDriver_print_item self it
  | RSSAlertDriver self => RSSAlertDriver_print_item self it
  end.

Definition print_end (d : driver) : M unit :=
  log_call CallEnd;;
  match d with
  | MarkdownAlertDriver self => MarkdownAlertDriver_print_end self
  | RSSAlertDriver self => RSSAlertDriver_print_end self
  end.

(* ================================================================== *)
(** ** datetime *)

(** The two standard-library functions the mapper calls on [created_at]:
    [datetime.fromisoformat], after the grammar of Python 3.7 to 3.10
    ([YYYY-MM-DD[*HH[:MM[:SS[.fff[fff]]]][+HH:MM[:SS[.ffffff]]]]], as
    [isoformat] writes it, digits being ASCII digits), and [strftime] in
    the C locale. *)
Record datetime : Type := DateTime {
  year : N;
  month : N;
  day : N;
  hour : N;
  minute : N;
  second : N;
  microsecond : N;
  tzinfo : option Z
}.

(** Exactly [n] decimal digits. *)
Fixpoint parse_digits (n : nat) (acc : N) (s : string) : option (N * string) :=
  match n with
  | O => Some (acc, s)
  | S n' =>
      match s with
      | "" => None
      | String c s' =>
          d ← Ascii.is_nat c; parse_digits n' (10 * acc + N.of_nat d)%N s'
      end
  end.

Definition expect (c : ascii) (s : string) : option string :=
  match s with
  | "" => None
  | String c' s' => if decide (c' = c) then Some s' else None
  end.

Definition parse_isoformat_date (s : string) : option (N * N * N * string) :=
  '(y, s) ← parse_digits 4 0 s;
  s ← expect "-" s;
  '(m, s) ← parse_digits 2 0 s;
  s ← expect "-" s;
  '(d, s) ← parse_digits 2 0 s;
  Some (y, m, d, s).

(** [.fff] or [.ffffff], in microseconds. *)
Definition parse_fraction (s : string) : option N :=
  match String.length s with
  | 3 => '(f, _) ← parse_digits 3 0 s; Some (f * 1000)%N
  | 6 => '(f, _) ← parse_digits 6 0 s; Some f
  | _ => None
  end.

(** [HH[:MM[:SS[.fff[fff]]]]], the whole of [s]. *)
Definition parse_hh_mm_ss_ff (s : string) : option (N * N * N * N) :=
  '(h, s) ← parse_digits 2 0 s;
  match s with
  | "" => Some (h, 0%N, 0%N, 0%N)
  | String c s =>
      if decide (c = ":"%char) then
        '(mi, s) ← parse_digits 2 0 s;
        match s with
        | "" => Some (h, mi, 0%N, 0%N)
        | String c s =>
            if decide (c = ":"%char) then
              '(sec, s) ← parse_digits 2 0 s;
              match s with
              | "" => Some (h, mi, sec, 0%N)
              | String c s =>
                  if decide (c = "."%char) then
                    us ← parse_fraction s; Some (h, mi, sec, us)
                  else None
              end
            else None
        end
      else None
  end.

(** [s] cut at the first [c]: what is before it and what is after. *)
Fixpoint cut (c : ascii) (s : string) : option (string * string) :=
  match s with
  | "" => None
  | String c' s' =>
      if decide (c' = c) then Some ("", s')
      else '(a, b) ← cut c s'; Some (String c' a, b)
  end.

(** The offset of a time zone string [HH:MM], [HH:MM:SS] or
    [HH:MM:SS.ffffff], in microseconds; it has to be less than a day. *)
Definition parse_tz (negative : bool) (s : string) : option Z :=
  if bool_decide (String.length s ∈ [5; 8; 15]) then
    '(h, mi, sec, us) ← parse_hh_mm_ss_ff s;
    let td := Z.of_N (((h * 60 + mi) * 60 + sec) * 1000000 + us) in
    if bool_decide (td < 86400000000)%Z
    then Some (if negative then - td else td)%Z
    else None
  else None.

Definition parse_isoformat_time (tstr : string)
  : option (N * N * N * N * option Z) :=
  let tz :=
    match cut "-" tstr with
    | Some (t, z) => Some (t, true, z)
    | None =>
        match cut "+" tstr with
        | Some (t, z) => Some (t, false, z)
        | None => None
        end
    end in
  match tz with
  | Some (t, negative, z) =>
      '(h, mi, sec, us) ← parse_hh_mm_ss_ff t;
      off ← parse_tz negative z;
      Some (h, mi, sec, us, Some off)
  | None =>
      '(h, mi, sec, us) ← parse_hh_mm_ss_ff tstr;
      Some (h, mi, sec, us, None)
  end.

Definition is_leap (y : N) : bool :=
  ((y mod 4 =? 0) && (negb (y mod 100 =? 0) || (y mod 400 =? 0)))%N.

Definition days_in_month (y m : N) : N :=
  (if m =? 2 then (if is_leap y then 29 else 28)
   else if (m =? 4) || (m =? 6) || (m =? 9) || (m =? 11) then 30
   else 31)%N.

(** The range checks of the [datetime] constructor. *)
Definition valid_datetime (dt : datetime) : bool :=
  bool_decide (1 ≤ year dt ≤ 9999)%N &&
  bool_decide (1 ≤ month dt ≤ 12)%N &&
  bool_decide (1 ≤ day dt ≤ days_in_month (year dt) (month dt))%N &&
  bool_decide (hour dt < 24)%N &&
  bool_decide (minute dt < 60)%N &&
  bool_decide (second dt < 60)%N &&
  bool_decide (microsecond dt < 1000000)%N.

Definition fromisoformat_str (date_string : string) : option datetime :=
  '(y, m, d, rest) ← parse_isoformat_date date_string;
  '(h, mi, sec, us, tz) ←
    match rest with
    | "" | String _ "" => Some (0%N, 0%N, 0%N, 0%N, None)
    | String _ tstr => parse_isoformat_time tstr
    end;
  let dt := DateTime y m d h mi sec us tz in
  if valid_datetime dt then Some dt else None.

Definition fromisoformat (v : value) : outcome datetime :=
  match v with
  | VStr s =>
      match fromisoformat_str s with
      | Some dt => Done dt
      | None => Raised ValueError
      end
  | _ => Raised TypeError
  end.

Definition digit_char (d : N) : ascii := ascii_of_N (48 + d).

(** The [width] low-order decimal digits of [n]: [n] padded with zeros
    when it has no more than [width] digits. *)
Fixpoint decimal (width : nat) (n : N) : string :=
  match width with
  | O => ""
  | S w => decimal w (n / 10)%N +:+ String (digit_char (n mod 10)%N) ""
  end.

(** The conversions of [strftime], as the library documents them ([%Y]
    on four digits, [%p] as [AM] or [PM]); one that is not listed is left
    as it is written. *)
Definition directive (c : ascii) (dt : datetime) : string :=
  match c with
  | "Y"%char => decimal 4 (year dt)
  | "y"%char => decimal 2 (year dt mod 100)%N
  | "m"%char => decimal 2 (month dt)
  | "d"%char => decimal 2 (day dt)
  | "H"%char => decimal 2 (hour dt)
  | "I"%char => decimal 2 (if hour dt mod 12 =? 0 then 12 else hour dt mod 12)%N
  | "M"%char => decimal 2 (minute dt)
  | "S"%char => decimal 2 (second dt)
  | "p"%char => if (hour dt <? 12)%N then "AM" else "PM"
  | "%"%char => "%"
  | _ => String "%" (String c "")
  end.

Fixpoint strftime (dt : datetime) (fmt : string) : string :=
  match fmt with
  | "" => ""
  | String c rest =>
      if decide (c = "%"%char) then
        match rest with
        | "" => "%"
        | String x rest' => directive x dt +:+ strftime dt rest'
        end
      else String c (strftime dt rest)
  end.

(* ================================================================== *)
(** ** The alert mapper, the stop lister and the script *)

(** The request string of [get_alerts]: [req_str] grows by one parameter
    at a time and [character] is the separator the next one takes. *)
Definition alerts_req_str (time api_key route : option string) : string :=
  let req_str := "alerts" in
  let character := "?" in
  let '(req_str, character) :=
    match time with
    | Some time => (req_str +:+ ((character +:+ "filter[datetime]=") +:+ time), "&")
    | None => (req_str, character)
    end in
  let '(req_str, character) :=
    match api_key with
    | Some key => (req_str +:+ ((character +:+ "api_key=") +:+ key), "&")
    | None => (req_str, character)
    end in
  let '(req_str, character) :=
    match route with
    | Some route => (req_str +:+ ((character +:+ "filter[route]=") +:+ route), "&")
    | None => (req_str, character)
    end in
  req_str.

(** The body of the loop of [get_alerts] up to the [print_item] call:
    the arguments it computes from one record. *)
Definition alert_item (alert : value) : outcome item :=
  attributes ← subscript alert "attributes";
  guid ← subscript alert "id";
  header ← subscript attributes "short_header";
  long_header ← subscript attributes "header";
  created_at ← subscript attributes "created_at";
  dt ← fromisoformat created_at;
  let date := strftime dt "%m-%d-%Y %I:%M %p" in
  d ← subscript attributes "description";
  let desc := match d with VNone => VStr "" | _ => d end in
  e ← subscript attributes "effect";
  effect ← match e with
           | VNone => Done ""
           | _ => str_add "Effect: " e
           end;
  Done (Item header long_header desc (VStr effect) (VStr date) [] guid).

(** One round of the loop of [get_alerts]. *)
Definition process_alert (driver : driver) (alert : value) : M unit :=
  it ← lift (alert_item alert);
  print_item driver it.

Section Script.

(** The upstream API: what [requests.get(url).json()] returns, or the
    exception it raises. *)
Variable api : string → outcome value.

Definition retrieve_from_api (req : string) : M value := λ w,
  let url := "https://api-v3.mbta.com/" +:+ req in
  (api url, World (stdout w) (requests w ++ [url]) (calls w)).

Definition get_alerts (g : globals) (driver : driver) (route time : option string)
  : M unit :=
  print_start driver g;;
  let req_str := alerts_req_str time (API_KEY g) route in
  alerts ← retrieve_from_api req_str;
  data ← lift (subscript alerts "data");
  records ← lift (iterate data);
  for_each (process_alert driver) records;;
  print_end driver.

Definition get_stoplist (g : globals) (routes : option string) : M unit :=
  match routes with
  | None =>
      print "route list must be provided when listing stops";;
      raise (SystemExit 1)
  | Some routes =>
      driver ← global "driver" (glob_driver g);
      print_start driver g;;
      for_each (λ route,
        let reqstr := "stops?filter[route]=" +:+ route in
        let reqstr :=
          match API_KEY g with
          | Some key => reqstr +:+ ("&api_key=" +:+ key)
          | None => reqstr
          end in
        stoplist ← retrieve_from_api reqstr;
        print ("## Route: " +:+ route);;
        data ← lift (subscript stoplist "data");
        stops ← lift (iterate data);
        for_each (λ stop,
          attributes ← lift (subscript stop "attributes");
          name ← lift (subscript attributes "name");
          line ← lift (str_add "* " name);
          print line) stops) (split "," routes);;
      print_end driver
  end.

(** What [argparse] hands to the script; an option that was not given is
    [None]. *)
Record arguments : Type := Args {
  arg_datatype : option string;
  arg_output : option string;
  arg_routes : option string;
  arg_time : option string;
  arg_title : option string;
  arg_description : option string;
  arg_url : option string
}.

(** The [__main__] block; [getenv_API_KEY] is [os.getenv("API_KEY")]. *)
Definition main (args : arguments) (getenv_API_KEY : option string) : M unit :=
  let title := default DEFAULT_TITLE (arg_title args) in
  let desc := default DEFAULT_DESC (arg_description args) in
  let url := default DEFAULT_URL (arg_url args) in
  let datatype := default DEFAULT_DATATYPE (arg_datatype args) in
  let outfmt := arg_output args in
  let routes := arg_routes args in
  let time := arg_time args in
  driver ←
    match outfmt with
    | None => mret (RSSAlertDriver (Feed title desc DEFAULT_LANG url))
    | Some fmt =>
        if decide (fmt = "rss")
        then mret (RSSAlertDriver (Feed title desc DEFAULT_LANG url))
        else if decide (fmt = "md")
        then mret (MarkdownAlertDriver (Feed title desc DEFAULT_LANG url))
        else (print "No such output driver.";; raise (SystemExit 0))
    end;
  let g := Globals (Some title) (Some desc) (Some driver) getenv_API_KEY in
  if decide (datatype = "alerts") then get_alerts g driver routes time
  else if decide (datatype = "stops") then get_stoplist g routes
  else (print "No such data type.";; raise (SystemExit 0)).

End Script.

(** The status the process ends with. *)
Definition exit_status (o : outcome unit) : Z :=
  match o with
  | Done _ => 0
  | Raised (SystemExit code) => code
  | Raised _ => 1
  end.

Definition w0 : world := World "" [] [].

(** The world after more output, more requests and more driver calls. *)
Definition extends (w : world) (out : string) (reqs : list string)
    (cs : list call) : world :=
  World (stdout w +:+ out) (requests w ++ reqs) (calls w ++ cs).

(* ================================================================== *)
(** ** What the specification says, written out *)

(** A description with every newline doubled. *)
Fixpoint spec_double_newlines (s : string) : string :=
  match s with
  | "" => ""
  | String c s' =>
      if decide (c = "010"%char) then nl +:+ nl +:+ spec_double_newlines s'
      else String c (spec_double_newlines s')
  end.

(** Every occurrence of the character [c] replaced by [new]. *)
Fixpoint subst_char (c : ascii) (new s : string) : string :=
  match s with
  | "" => ""
  | String x s' =>
      if decide (x = c) then new +:+ subst_char c new s'
      else String x (subst_char c new s')
  end.

(** The escaping asked of the RSS driver: each of the five special
    characters becomes its entity. *)
Definition escape_char (c : ascii) : string :=
  if decide (c = "&"%char) then "&amp;"
  else if decide (c = "<"%char) then "&lt;"
  else if decide (c = ">"%char) then "&gt;"
  else if decide (c = "034"%char) then "&quot;"
  else if decide (c = "'"%char) then "&#x27;"
  else String c "".

Fixpoint spec_escape (s : string) : string :=
  match s with
  | "" => ""
  | String c s' => escape_char c +:+ spec_escape s'
  end.

Definition special (c : ascii) : bool :=
  bool_decide (c = "<"%char) || bool_decide (c = ">"%char) ||
  bool_decide (c = "034"%char) || bool_decide (c = "'"%char).

(** Text that is safe inside an element: no raw [<], [>] or quote, and
    every [&] opens one of the five entities. *)
Fixpoint well_escaped (s : string) : bool :=
  match s with
  | "" => true
  | String c s' =>
      if decide (c = "&"%char) then
        (String.prefix "amp;" s' || String.prefix "lt;" s' ||
         String.prefix "gt;" s' || String.prefix "quot;" s' ||
         String.prefix "#x27;" s') && well_escaped s'
      else negb (special c) && well_escaped s'
  end.

(** The [<category>] lines as the RSS driver writes them. *)
Fixpoint category_lines (cs : list string) : string :=
  match cs with
  | [] => ""
  | c :: cs' => "<category>" +:+ c +:+ "</category>" +:+ nl +:+ category_lines cs'
  end.

(** The text of one item: what the Markdown driver and the RSS driver
    write for a header, a long header, a description, a date, an
    identifier and categories. *)
Definition markdown_item (h lh d t : string) : string :=
  "## " +:+ h +:+ " (added " +:+ t +:+ ")" +:+ nl +:+
  lh +:+ nl +:+ nl +:+ spec_double_newlines d +:+ nl +:+ nl +:+ nl.

Definition rss_item (h lh d t g : string) (cs : list string) : string :=
  "<item>" +:+ nl +:+
  "<title>" +:+ spec_escape h +:+ "</title>" +:+ nl +:+
  "<description><pre>" +:+ spec_escape lh +:+ nl +:+ nl +:+
    spec_escape d +:+ "</pre></description>" +:+ nl +:+
  "<pubDate>" +:+ t +:+ "</pubDate>" +:+ nl +:+
  "<guid>" +:+ g +:+ "</guid>" +:+ nl +:+
  category_lines cs +:+
  "</item>" +:+ nl.

Definition rendered (dr : driver) (h lh d t g : string) (cs : list string)
  : string :=
  match dr with
  | MarkdownAlertDriver _ => markdown_item h lh d t
  | RSSAlertDriver _ => rss_item h lh d t g cs
  end.

(** The part of an item that carries the description: the second line
    group of the Markdown item, the [<description>] element of the RSS
    item. *)
Definition description_portion (dr : driver) (lh d : string) : string :=
  match dr with
  | MarkdownAlertDriver _ =>
      lh +:+ nl +:+ nl +:+ spec_double_newlines d +:+ nl +:+ nl +:+ nl
  | RSSAlertDriver _ =>
      "<description><pre>" +:+ spec_escape lh +:+ nl +:+ nl +:+
      spec_escape d +:+ "</pre></description>" +:+ nl
  end.

(** The fixed pieces of text of the two drivers, with the characters
    that are escaped and their entities. *)
Definition literals : list string :=
  ["## "; " (added "; ")"; nl; nl +:+ nl;
   "<item>"; "<title>"; "</title>"; "<description><pre>";
   "</pre></description>"; "<pubDate>"; "</pubDate>"; "<guid>"; "</guid>";
   "<category>"; "</category>"; "</item>";
   "&"; "<"; ">"; dquote; "'";
   "&amp;"; "&lt;"; "&gt;"; "&quot;"; "&#x27;"].

(** The characters a formatted date is made of. *)
Definition date_chars : string := "0123456789-: APM".

(* ------------------------------------------------------------------ *)
(** *** A word in a text *)

(** [p in s]: [p] occurs in [s] as a substring. *)
Fixpoint contains (p s : string) : bool :=
  String.prefix p s ||
  match s with
  | "" => false
  | String _ s' => contains p s'
  end.

(** Reading [s] in search of the word [String c q], one character at a
    time: [rem] is the part of the word still to be matched.  The word is
    one whose first character does not come back in it, so a mismatch
    restarts the word, after its first character when the mismatch is
    that character.  [None] once the word has been read. *)
Definition step (c : ascii) (q rem : string) (x : ascii) : string :=
  match rem with
  | "" => ""
  | String y r =>
      if decide (x = y) then r
      else if decide (x = c) then q
      else String c q
  end.

Fixpoint scan (c : ascii) (q rem s : string) : option string :=
  match s with
  | "" => Some rem
  | String x s' =>
      match step c q rem x with
      | "" => None
      | rem' => scan c q rem' s'
      end
  end.

Fixpoint suffixes (s : string) : list string :=
  match s with
  | "" => []
  | String _ s' => s :: suffixes s'
  end.

(** What can be left to match: the whole word or a non-empty end of it. *)
Definition states (c : ascii) (q : string) : list string :=
  String c q :: suffixes q.

Fixpoint has_char (c : ascii) (s : string) : bool :=
  match s with
  | "" => false
  | String x s' => bool_decide (x = c) || has_char c s'
  end.

(** [t] takes the search back to its start from every state. *)
Definition resets (c : ascii) (q t : string) : bool :=
  forallb (λ rem, bool_decide (scan c q rem t = Some (String c q))) (states c q).

(* ------------------------------------------------------------------ *)
(** *** The query string, the selectors, the date *)

(** The query string as the specification builds it: the parameters
    that are present, in the order time, key, route, the first after a
    [?] and each later one after an [&]. *)
Definition spec_params (time api_key route : option string) : list string :=
  omap id [String.append "filter[datetime]=" <$> time;
           String.append "api_key=" <$> api_key;
           String.append "filter[route]=" <$> route].

Fixpoint spec_join (first : bool) (params : list string) : string :=
  match params with
  | [] => ""
  | p :: ps => (if first then "?" else "&") +:+ p +:+ spec_join false ps
  end.

(** The selectors the script knows; an option that is not given selects
    the default. *)
Definition known_output (outfmt : option string) : bool :=
  match outfmt with
  | None => true
  | Some fmt => bool_decide (fmt = "rss") || bool_decide (fmt = "md")
  end.

Definition known_datatype (datatype : option string) : bool :=
  match datatype with
  | None => true
  | Some t => bool_decide (t = "alerts") || bool_decide (t = "stops")
  end.

(** The date as the specification writes it, [MM-DD-YYYY hh:mm AM/PM]:
    every field with its digits spelled out, the hour on a 12-hour
    clock. *)
Definition two_digits (n : N) : string :=
  String (digit_char (n / 10 mod 10)%N) (String (digit_char (n mod 10)%N) "").

Definition four_digits (n : N) : string :=
  String (digit_char (n / 1000 mod 10)%N)
    (String (digit_char (n / 100 mod 10)%N)
       (String (digit_char (n / 10 mod 10)%N)
          (String (digit_char (n mod 10)%N) ""))).

Definition hour12 (h : N) : N :=
  (if h =? 0 then 12 else if h <=? 12 then h else h - 12)%N.

Definition spec_date (dt : datetime) : string :=
  two_digits (month dt) +:+ "-" +:+ two_digits (day dt) +:+ "-" +:+
  four_digits (year dt) +:+ " " +:+
  two_digits (hour12 (hour dt)) +:+ ":" +:+ two_digits (minute dt) +:+ " " +:+
  (if (hour dt <? 12)%N then "AM" else "PM").

(** An alert as the data model has it: an [id], and attributes with the
    two headers, a [created_at] that [fromisoformat] reads, and a
    [description] and an [effect] that are a string or null. *)
Definition is_str (v : value) : bool :=
  match v with
  | VStr _ => true
  | _ => false
  end.

Definition is_str_or_null (v : value) : bool :=
  match v with
  | VStr _ | VNone => true
  | _ => false
  end.

Definition readable_date (v : value) : bool :=
  match v with
  | VStr s => bool_decide (is_Some (fromisoformat_str s))
  | _ => false
  end.

Definition has (m : gmap string value) (key : string) (P : value → bool) : bool :=
  match m !! key with
  | Some v => P v
  | None => false
  end.

Definition well_formed_attributes (a : gmap string value) : bool :=
  has a "short_header" is_str && has a "header" is_str &&
  has a "created_at" readable_date &&
  has a "description" is_str_or_null && has a "effect" is_str_or_null.

Definition well_formed_alert (alert : value) : bool :=
  match alert with
  | VDict m =>
      has m "id" is_str &&
      match m !! "attributes" with
      | Some (VDict a) => well_formed_attributes a
      | _ => false
      end
  | _ => false
  end.

(** The attributes of a record, and the record as far as [get_alerts]
    reads it before it looks up [description]: an [id], attributes with
    the two headers and a [created_at] that [fromisoformat] reads. *)
Definition attributes_of (alert : value) : gmap string value :=
  match alert with
  | VDict m =>
      match m !! "attributes" with
      | Some (VDict a) => a
      | _ => ∅
      end
  | _ => ∅
  end.

Definition leading_fields (alert : value) : bool :=
  match alert with
  | VDict m =>
      bool_decide (is_Some (m !! "id")) &&
      match m !! "attributes" with
      | Some (VDict a) =>
          bool_decide (is_Some (a !! "short_header")) &&
          bool_decide (is_Some (a !! "header")) &&
          has a "created_at" readable_date
      | _ => false
      end
  | _ => false
  end.

(** The first of [description] and [effect] that the attributes lack. *)
Definition missing_key (alert : value) : option string :=
  match attributes_of alert !! "description" with
  | None => Some "description"
  | Some _ =>
      match attributes_of alert !! "effect" with
      | None => Some "effect"
      | Some _ => None
      end
  end.

(** The Markdown preamble needs the names [title] and [desc] bound, as
    the script binds them. *)
Definition preamble_ready (d : driver) (g : globals) : bool :=
  match d with
  | MarkdownAlertDriver _ =>
      bool_decide (is_Some (glob_title g)) && bool_decide (is_Some (glob_desc g))
  | RSSAlertDriver _ => true
  end.

(** An item whose fields are all strings. *)
Definition text_item (it : item) : bool :=
  is_str (header it) && is_str (long_header it) && is_str (desc it) &&
  is_str (date it) && is_str (guid it) &&
  forallb is_str (categories it).

(* ================================================================== *)
(** ** Sample data *)

Definition sample_attributes : gmap string value :=
  <["short_header" := VStr "Red Line delay"]>
  (<["header" := VStr "Red Line: delays of about 10 minutes"]>
  (<["created_at" := VStr "2021-03-05T14:30:00-05:00"]>
  (<["description" := VNone]>
  (<["effect" := VNone]> ∅)))).

Definition sample_alert : value :=
  VDict (<["id" := VStr "382310"]> (<["attributes" := VDict sample_attributes]> ∅)).

(** A response with the same alert twice. *)
Definition sample_response : value :=
  VDict (<["data" := VList [sample_alert; sample_alert]]> ∅).

Definition sample_api (url : string) : outcome value := Done sample_response.

Definition sample_globals : globals :=
  Globals (Some DEFAULT_TITLE) (Some DEFAULT_DESC) None None.

Definition sample_feed : feed :=
  Feed DEFAULT_TITLE DEFAULT_DESC DEFAULT_LANG DEFAULT_URL.

(** The sample alert without its [effect] key, and a response with it in
    second place. *)
Definition sample_alert_no_effect : value :=
  VDict (<["id" := VStr "382311"]>
        (<["attributes" := VDict (delete "effect" sample_attributes)]> ∅)).

Definition sample_response_no_effect : value :=
  VDict (<["data" := VList [sample_alert; sample_alert_no_effect; sample_alert]]> ∅).

(** An alert with a null [effect] whose short header reads like an
    effect line. *)
Definition sample_alert_effect_text : value :=
  VDict (<["id" := VStr "382312"]>
        (<["attributes" :=
             VDict (<["short_header" := VStr "Effect: none so far"]>
                      sample_attributes)]> ∅)).

Definition sample_item_effect_text : item :=
  Item (VStr "Effect: none so far") (VStr "Red Line: delays of about 10 minutes")
       (VStr "") (VStr "") (VStr "03-05-2021 02:30 PM") [] (VStr "382312").

Definition sample_item : item :=
  Item (VStr "Red Line delay") (VStr "Red Line: delays of about 10 minutes")
       (VStr "") (VStr "") (VStr "03-05-2021 02:30 PM") [] (VStr "382310").

(* ================================================================== *)
(** ** Whole runs, written out *)

(** The text [print_start] writes when it succeeds, and the text
    [print_end] writes. *)
Definition preamble_text (dr : driver) (g : globals) : string :=
  match dr with
  | MarkdownAlertDriver _ =>
      "# " +:+ default "" (glob_title g) +:+ nl +:+
      default "" (glob_desc g) +:+ nl
  | RSSAlertDriver self =>
      "<?xml version=" +:+ dquote +:+ "1.0" +:+ dquote +:+
        " encoding=" +:+ dquote +:+ "utf-8" +:+ dquote +:+ "?>" +:+ nl +:+
      "<rss version=" +:+ dquote +:+ "2.0" +:+ dquote +:+
        " xmlns:atom=" +:+ dquote +:+ "http://www.w3.org/2005/Atom"
        +:+ dquote +:+ ">" +:+ nl +:+
      "<channel>" +:+ nl +:+
      "<title>" +:+ self_title self +:+ "</title>" +:+ nl +:+
      "<description>" +:+ self_desc self +:+ "</description>" +:+ nl +:+
      "<language>" +:+ self_lang self +:+ "</language>" +:+ nl +:+
      "<link>" +:+ self_url self +:+ "</link>" +:+ nl
  end.

Definition postamble_text (dr : driver) : string :=
  match dr with
  | MarkdownAlertDriver _ => ""
  | RSSAlertDriver _ => "</channel>" +:+ nl +:+ "</rss>" +:+ nl
  end.

(** The text of an item made of strings. *)
Definition str_of (v : value) : string :=
  match v with
  | VStr s => s
  | _ => ""
  end.

Definition item_text (dr : driver) (it : item) : string :=
  rendered dr (str_of (header it)) (str_of (long_header it)) (str_of (desc it))
    (str_of (date it)) (str_of (guid it)) (str_of <$> categories it).

Fixpoint items_text (dr : driver) (items : list item) : string :=
  match items with
  | [] => ""
  | it :: items' => item_text dr it +:+ items_text dr items'
  end.

(** The driver and the module-level names as the [__main__] block sets
    them. *)
Definition script_feed (args : arguments) : feed :=
  Feed (default DEFAULT_TITLE (arg_title args))
       (default DEFAULT_DESC (arg_description args))
       DEFAULT_LANG
       (default DEFAULT_URL (arg_url args)).

Definition script_driver (args : arguments) : driver :=
  match arg_output args with
  | None => RSSAlertDriver (script_feed args)
  | Some fmt =>
      if decide (fmt = "md") then MarkdownAlertDriver (script_feed args)
      else RSSAlertDriver (script_feed args)
  end.

(** The preamble with the title and the description of the driver
    itself. *)
Definition own_preamble (dr : driver) : string :=
  match dr with
  | MarkdownAlertDriver self | RSSAlertDriver self =>
      preamble_text dr (Globals (Some (self_title self)) (Some (self_desc self))
                          None None)
  end.

(** The exception [get_alerts] meets when the response gives it no
    records to loop over: no dictionary, no [data] key, or a [data] that
    cannot be iterated. *)
Definition no_records (response : value) : option exn :=
  match response with
  | VDict m =>
      match m !! "data" with
      | None => Some (KeyError "data")
      | Some (VNone | VBool _ | VNum _) => Some TypeError
      | Some _ => None
      end
  | _ => Some TypeError
  end.

(** The records [get_alerts] loops over, for what the request returned. *)
Definition records_of (result : outcome value) : list value :=
  match result with
  | Done response =>
      match subscript response "data" with
      | Done data =>
          match iterate data with
          | Done records => records
          | Raised _ => []
          end
      | Raised _ => []
      end
  | Raised _ => []
  end.

(** A computation that sends no request and calls no driver method. *)
Definition quiet {A : Type} (m : M A) : Prop :=
  ∀ w, requests (m w).2 = requests w ∧ calls (m w).2 = calls w.

(** The stop lister: the request for one route, the names in a
    well-formed response, the section of a route. *)
Definition stops_url (key : option string) (route : string) : string :=
  "https://api-v3.mbta.com/" +:+
  match key with
  | Some key => ("stops?filter[route]=" +:+ route) +:+ ("&api_key=" +:+ key)
  | None => "stops?filter[route]=" +:+ route
  end.

Definition stop_name (stop : value) : option string :=
  match stop with
  | VDict m =>
      match m !! "attributes" with
      | Some (VDict a) =>
          match a !! "name" with
          | Some (VStr n) => Some n
          | _ => None
          end
      | _ => None
      end
  | _ => None
  end.

Definition stop_names (response : value) : option (list string) :=
  match response with
  | VDict m =>
      match m !! "data" with
      | Some (VList stops) => mapM stop_name stops
      | _ => None
      end
  | _ => None
  end.

Fixpoint stop_lines (names : list string) : string :=
  match names with
  | [] => ""
  | n :: names' => "* " +:+ n +:+ nl +:+ stop_lines names'
  end.

Fixpoint route_sections (sections : list (string * list string)) : string :=
  match sections with
  | [] => ""
  | (route, names) :: sections' =>
      "## Route: " +:+ route +:+ nl +:+ stop_lines names +:+
      route_sections sections'
  end.

(** [route] is answered by a well-formed stop list with these names. *)
Definition answered (api : string → outcome value) (key : option string)
    (route : string) (names : list string) : Prop :=
  ∃ response,
    api (stops_url key route) = Done response ∧
    stop_names response = Some names.

Fixpoint count_char (c : ascii) (s : string) : nat :=
  match s with
  | "" => 0
  | String x s' => (if decide (x = c) then 1 else 0) + count_char c s'
  end.

(** [sep.join(l)] for a one-character separator. *)
Fixpoint join (sep : ascii) (l : list string) : string :=
  match l with
  | [] => ""
  | [x] => x
  | x :: l' => x +:+ String sep (join sep l')
  end.

(** No line break stands alone: every run of newlines in [s] has an even
    length ([odd] tells whether the run being read is odd so far). *)
Fixpoint even_runs (odd : bool) (s : string) : bool :=
  match s with
  | "" => negb odd
  | String c s' =>
      if decide (c = "010"%char) then even_runs (negb odd) s'
      else negb odd && even_runs false s'
  end.

(** More sample data: a stop list, and an alert whose [created_at] is
    not a timestamp. *)
Definition sample_stop (name : string) : value :=
  VDict (<["id" := VStr "place"]>
        (<["attributes" := VDict (<["name" := VStr name]> ∅)]> ∅)).

Definition sample_stops_api (url : string) : outcome value :=
  if decide (url = "https://api-v3.mbta.com/stops?filter[route]=Red")
  then Done (VDict (<["data" := VList [sample_stop "Alewife"; sample_stop "Davis"]]> ∅))
  else if decide (url = "https://api-v3.mbta.com/stops?filter[route]=Mattapan")
  then Done (VDict (<["data" := VList [sample_stop "Ashmont"]]> ∅))
  else Raised RequestError.

Definition sample_globals_md : globals :=
  Globals (Some DEFAULT_TITLE) (Some DEFAULT_DESC)
          (Some (MarkdownAlertDriver sample_feed)) None.

Definition sample_alert_bad_date : value :=
  VDict (<["id" := VStr "382313"]>
        (<["attributes" :=
             VDict (<["created_at" := VStr "yesterday"]> sample_attributes)]> ∅)).

Definition sample_response_bad_date : value :=
  VDict (<["data" := VList [sample_alert; sample_alert_bad_date; sample_alert]]> ∅).

(* ================================================================== *)
(** * Properties *)

#[local] Arguments String.append !_ _ / : simpl nomatch.
#[local] Arguments nl : simpl never.
#[local] Arguments dquote : simpl never.
#[local] Arguments replace : simpl never.
#[local] Arguments html_escape : simpl never.

(** ** Strings *)

Lemma app_nil_l (s : string) : "" +:+ s = s.
Proof. reflexivity. Qed.

Lemma app_nil_r (s : string) : s +:+ "" = s.
Proof. induction s as [|c s IH]; [done|]. simpl. by rewrite IH. Qed.

Lemma app_assoc (s t u : string) : (s +:+ t) +:+ u = s +:+ (t +:+ u).
Proof. induction s as [|c s IH]; [done|]. simpl. by rewrite IH. Qed.

Lemma prefix_char (c x : ascii) (s : string) :
  String.prefix (String c "") (String x s) = bool_decide (x = c).
Proof.
  cbn. destruct (ascii_dec c x) as [->|Hne].
  - rewrite bool_decide_true by done. by destruct s.
  - rewrite bool_decide_false by congruence. done.
Qed.

(** With a one-character [old], [replace] is a character-wise
    substitution. *)
Lemma replace_char (c : ascii) (new s : string) :
  replace (String c "") new s = subst_char c new s.
Proof.
  unfold replace. induction s as [|x s IH]; [done|].
  unfold replace_go; fold replace_go. rewrite prefix_char.
  cbn [String.length Nat.sub]. rewrite IH. cbn [subst_char].
  by destruct (decide (x = c)); [rewrite bool_decide_true|rewrite bool_decide_false].
Qed.

Lemma replace_newlines (d : string) :
  replace nl (nl +:+ nl) d = spec_double_newlines d.
Proof.
  unfold nl at 1. rewrite replace_char.
  induction d as [|c d IH]; [done|].
  cbn [subst_char spec_double_newlines]. rewrite IH.
  destruct (decide (c = "010"%char)); [|done]. by rewrite app_assoc.
Qed.

(** Equality of two concatenations, up to the bracketing. *)
Ltac str_eq :=
  unfold nl, dquote;
  repeat first [rewrite app_assoc | rewrite app_nil_r | progress simpl];
  reflexivity.

(** Unfolding of the monadic code down to the world it returns. *)
Ltac run :=
  unfold print_start, print_item, print_end,
    MarkdownAlertDriver_print_start, MarkdownAlertDriver_print_item,
    MarkdownAlertDriver_print_end, RSSAlertDriver_print_start,
    RSSAlertDriver_print_item, RSSAlertDriver_print_end,
    global, raise, lift, print, log_call, mbind, mret, M_bind, M_ret;
  simpl.

(** ** The Markdown item *)

(** C1: the Markdown [print_item], called with strings, appends to the
    output the heading [## h (added t)] on a line of its own, then [lh], a
    blank line, [d] with each newline doubled, and two blank lines; the
    description [a<newline>b] becomes [a<newline><newline>b]. *)
Theorem markdown_print_item_text :
  (∀ self h lh d e t cats g w,
     let it := Item (VStr h) (VStr lh) (VStr d) e (VStr t) cats g in
     print_item (MarkdownAlertDriver self) it w
     = (Done tt,
        extends w
          (("## " +:+ h +:+ " (added " +:+ t +:+ ")") +:+ nl +:+
           lh +:+ nl +:+ nl +:+
           spec_double_newlines d +:+ nl +:+ nl +:+ nl)
          [] [CallItem it]))
  ∧ (∀ d, replace nl (nl +:+ nl) d = spec_double_newlines d)
  ∧ replace nl (nl +:+ nl) ("a" +:+ nl +:+ "b") = "a" +:+ nl +:+ nl +:+ "b".
Proof.
  split; [|split; [apply replace_newlines|reflexivity]].
  intros self h lh d e t cats g w it. subst it. unfold extends. run.
  rewrite replace_newlines, (right_id_L [] (++)). do 2 f_equal. str_eq.
Qed.

(** ** HTML escaping *)

Lemma subst_char_app (c : ascii) (new a b : string) :
  subst_char c new (a +:+ b) = subst_char c new a +:+ subst_char c new b.
Proof.
  induction a as [|x a IH]; [done|]. simpl.
  destruct (decide (x = c)); simpl; rewrite IH; [by rewrite app_assoc|done].
Qed.

(** [html.escape] maps each character on its own: the five special
    characters to their entities, any other character to itself. *)
Lemma html_escape_spec (s : string) : html_escape s = spec_escape s.
Proof.
  unfold html_escape, dquote. rewrite !replace_char.
  induction s as [|c s IH]; [done|].
  cbn [subst_char spec_escape]. rewrite <- IH. unfold escape_char.
  repeat case_decide; subst; rewrite ?subst_char_app;
    repeat (first [progress cbn [subst_char] | case_decide]; try congruence);
    done.
Qed.

Lemma well_escaped_plain (c : ascii) (s : string) :
  c ≠ "&"%char → special c = false →
  well_escaped (String c s) = well_escaped s.
Proof.
  intros H1 H2. cbn [well_escaped]. rewrite decide_False by done. by rewrite H2.
Qed.

Lemma well_escaped_amp (s : string) :
  well_escaped (String "&" s)
  = (String.prefix "amp;" s || String.prefix "lt;" s || String.prefix "gt;" s ||
     String.prefix "quot;" s || String.prefix "#x27;" s) && well_escaped s.
Proof. reflexivity. Qed.

Lemma well_escaped_app_char (c : ascii) (s : string) :
  well_escaped s = true → well_escaped (escape_char c +:+ s) = true.
Proof.
  intros Hs. unfold escape_char.
  repeat case_decide; subst; cbn [String.append].
  6: { rewrite well_escaped_plain; [done..|]. unfold special.
       by rewrite !bool_decide_false. }
  all: rewrite well_escaped_amp, !well_escaped_plain by done.
  all: rewrite Hs; by destruct s.
Qed.

(** The escaped text holds none of [<], [>], the two quotes, and an [&]
    only where one of the five entities starts. *)
Lemma html_escape_well_escaped (s : string) : well_escaped (html_escape s) = true.
Proof.
  rewrite html_escape_spec.
  induction s as [|c s IH]; [done|]. cbn [spec_escape].
  by apply well_escaped_app_char.
Qed.

(** ** The RSS item *)

Lemma print_categories_strings (cs : list string) (w : world) :
  print_categories (VStr <$> cs) w
  = (Done tt, World (stdout w +:+ category_lines cs) (requests w) (calls w)).
Proof.
  revert w. induction cs as [|c cs IH]; intros [out reqs cls].
  - simpl. by rewrite app_nil_r.
  - cbn [fmap list_fmap print_categories]. run. rewrite IH. simpl.
    do 2 f_equal. str_eq.
Qed.

(** What the RSS [print_item] writes when it is called with strings. *)
Lemma rss_print_item_text self h lh d e t g cs w :
  let it := Item (VStr h) (VStr lh) (VStr d) e (VStr t) (VStr <$> cs) (VStr g) in
  print_item (RSSAlertDriver self) it w
  = (Done tt,
     World (stdout w +:+
              ("<item>" +:+ nl +:+
               "<title>" +:+ html_escape h +:+ "</title>" +:+ nl +:+
               "<description><pre>" +:+ html_escape lh +:+ nl +:+ nl +:+
                 html_escape d +:+ "</pre></description>" +:+ nl +:+
               "<pubDate>" +:+ t +:+ "</pubDate>" +:+ nl +:+
               "<guid>" +:+ g +:+ "</guid>" +:+ nl +:+
               category_lines cs +:+
               "</item>" +:+ nl))
           (requests w) (calls w ++ [CallItem it])).
Proof.
  intros it. subst it. run. rewrite print_categories_strings. simpl.
  do 2 f_equal. str_eq.
Qed.

(** C2: the RSS [print_item] escapes [header], [long_header] and
    [description], but writes each category as it is given: the category
    [a<b] reaches the output with its raw [<], which escaped text never
    holds. *)
Theorem rss_category_not_escaped :
  (∀ self h lh d e t g cs w,
     let it := Item (VStr h) (VStr lh) (VStr d) e (VStr t) (VStr <$> cs) (VStr g) in
     stdout (print_item (RSSAlertDriver self) it w).2
     = stdout w +:+
         ("<item>" +:+ nl +:+
          "<title>" +:+ html_escape h +:+ "</title>" +:+ nl +:+
          "<description><pre>" +:+ html_escape lh +:+ nl +:+ nl +:+
            html_escape d +:+ "</pre></description>" +:+ nl +:+
          "<pubDate>" +:+ t +:+ "</pubDate>" +:+ nl +:+
          "<guid>" +:+ g +:+ "</guid>" +:+ nl +:+
          category_lines cs +:+
          "</item>" +:+ nl))
  ∧ (∀ s, well_escaped (html_escape s) = true)
  ∧ category_lines ["a<b"] = "<category>a<b</category>" +:+ nl
  ∧ well_escaped "a<b" = false
  ∧ stdout (print_item (RSSAlertDriver (Feed "" "" "" ""))
              (Item (VStr "h") (VStr "") (VStr "") (VStr "") (VStr "") [VStr "a<b"]
                    (VStr "")) w0).2
    = "<item>" +:+ nl +:+ "<title>h</title>" +:+ nl +:+
      "<description><pre>" +:+ nl +:+ nl +:+ "</pre></description>" +:+ nl +:+
      "<pubDate></pubDate>" +:+ nl +:+ "<guid></guid>" +:+ nl +:+
      "<category>a<b</category>" +:+ nl +:+ "</item>" +:+ nl.
Proof.
  split; [|split; [apply html_escape_well_escaped|by vm_compute]].
  intros self h lh d e t g cs w it.
  pose proof (rss_print_item_text self h lh d e t g cs w) as H.
  cbv zeta in H. subst it. by rewrite H.
Qed.

(** ** The feed preamble *)

(** C7: the Markdown [print_start] reads the module-level names [title]
    and [desc], not the fields of the driver: two Markdown drivers built
    with different titles write the same preamble, and without those
    names bound the call raises [NameError]; the RSS [print_start] writes
    the four fields of its own driver. *)
Theorem markdown_print_start_reads_globals :
  (∀ self g w,
     print_start (MarkdownAlertDriver self) g w
     = match glob_title g, glob_desc g with
       | Some t, Some d =>
           (Done tt,
            World (stdout w +:+ "# " +:+ t +:+ nl +:+ d +:+ nl)
                  (requests w) (calls w ++ [CallStart]))
       | Some t, None =>
           (Raised (NameError "desc"),
            World (stdout w +:+ "# " +:+ t +:+ nl)
                  (requests w) (calls w ++ [CallStart]))
       | None, _ =>
           (Raised (NameError "title"),
            World (stdout w) (requests w) (calls w ++ [CallStart]))
       end)
  ∧ (∀ self1 self2 g w,
       print_start (MarkdownAlertDriver self1) g w
       = print_start (MarkdownAlertDriver self2) g w)
  ∧ (∀ self g w,
       print_start (RSSAlertDriver self) g w
       = (Done tt,
          World (stdout w +:+
                   "<?xml version=" +:+ dquote +:+ "1.0" +:+ dquote +:+
                     " encoding=" +:+ dquote +:+ "utf-8" +:+ dquote +:+ "?>" +:+ nl +:+
                   "<rss version=" +:+ dquote +:+ "2.0" +:+ dquote +:+
                     " xmlns:atom=" +:+ dquote +:+ "http://www.w3.org/2005/Atom"
                     +:+ dquote +:+ ">" +:+ nl +:+
                   "<channel>" +:+ nl +:+
                   "<title>" +:+ self_title self +:+ "</title>" +:+ nl +:+
                   "<description>" +:+ self_desc self +:+ "</description>" +:+ nl +:+
                   "<language>" +:+ self_lang self +:+ "</language>" +:+ nl +:+
                   "<link>" +:+ self_url self +:+ "</link>" +:+ nl)
                (requests w) (calls w ++ [CallStart])))
  ∧ print_start (MarkdownAlertDriver (Feed "My feed" "My alerts" "en_us" "u"))
      (Globals None None None (Some "")) w0
    = (Raised (NameError "title"), World "" [] [CallStart])
  ∧ print_start (MarkdownAlertDriver (Feed "My feed" "My alerts" "en_us" "u"))
      (Globals (Some "Other") (Some "Other text") None None) w0
    = (Done tt, World ("# Other" +:+ nl +:+ "Other text" +:+ nl) [] [CallStart]).
Proof.
  split; [|split; [done|split; [|done]]].
  - intros self [[t|] [d|] dr key] w; run; try done; do 2 f_equal; str_eq.
  - intros self g w. run. do 2 f_equal. str_eq.
Qed.

(** ** The query string *)

(** C3: the request of [get_alerts] is [alerts] followed by the
    parameters that are present, in the order [filter[datetime]],
    [api_key], [filter[route]], the first after [?] and the others after
    [&]. *)
Theorem alerts_req_str_spec :
  (∀ time api_key route,
     alerts_req_str time api_key route
     = "alerts" +:+ spec_join true (spec_params time api_key route))
  ∧ alerts_req_str None None (Some "Red") = "alerts?filter[route]=Red"
  ∧ alerts_req_str (Some "2021-01-01") (Some "k") None
    = "alerts?filter[datetime]=2021-01-01&api_key=k".
Proof.
  split; [|done].
  intros [t|] [k|] [r|]; unfold alerts_req_str, spec_params; simpl; str_eq.
Qed.

(** ** The selectors of the script *)

(** C8: with an output format other than [rss] and [md], or a data type
    other than [alerts] and [stops], the script prints one diagnostic
    line and nothing else, calls no driver method, sends no request, and
    exits with status 0. *)
Theorem main_unknown_selector api args key w :
  known_output (arg_output args) = false ∨
  known_datatype (arg_datatype args) = false →
  ∃ line,
    main api args key w
    = (Raised (SystemExit 0),
       World (stdout w +:+ line +:+ nl) (requests w) (calls w))
    ∧ line = (if known_output (arg_output args)
              then "No such data type." else "No such output driver.")
    ∧ exit_status (main api args key w).1 = 0%Z.
Proof.
  intros Hsel.
  assert (main api args key w
          = (Raised (SystemExit 0),
             World (stdout w +:+
                      (if known_output (arg_output args)
                       then "No such data type." else "No such output driver.")
                      +:+ nl)
                   (requests w) (calls w))) as Hmain.
  { unfold main.
    destruct (known_output (arg_output args)) eqn:Hout.
    - destruct Hsel as [?|Hdt]; [done|].
      destruct (arg_datatype args) as [t|]; [|done]. simpl in Hdt.
      apply orb_false_iff in Hdt
        as [Ha%bool_decide_eq_false Hs%bool_decide_eq_false].
      destruct (arg_output args) as [fmt|]; simpl in *.
      + apply orb_true_iff in Hout
          as [->%bool_decide_eq_true| ->%bool_decide_eq_true];
          run; by rewrite !decide_False by done.
      + run. by rewrite !decide_False by done.
    - destruct (arg_output args) as [fmt|]; [|done]. simpl in Hout.
      apply orb_false_iff in Hout
        as [Hrss%bool_decide_eq_false Hmd%bool_decide_eq_false].
      run. by rewrite !decide_False by done. }
  eexists. split; [exact Hmain|]. split; [done|]. by rewrite Hmain.
Qed.

Lemma main_unknown_selector_witness :
  ∃ line,
    main (λ _, Raised RequestError)
      (Args None (Some "xyz") None None None None None) None w0
    = (Raised (SystemExit 0), World (stdout w0 +:+ line +:+ nl) [] [])
    ∧ line = "No such output driver."
    ∧ exit_status
        (main (λ _, Raised RequestError)
           (Args None (Some "xyz") None None None None None) None w0).1 = 0%Z.
Proof.
  apply (main_unknown_selector (λ _, Raised RequestError)
           (Args None (Some "xyz") None None None None None) None w0).
  left. reflexivity.
Defined.

(** ** The stop lister without a route list *)

(** C9: called without a route list, [get_stoplist] prints its message
    and exits at once: no driver method is called, so there is no feed
    output, and no request is sent. *)
Theorem get_stoplist_without_routes :
  (∀ api g w,
     get_stoplist api g None w
     = (Raised (SystemExit 1),
        World (stdout w +:+ "route list must be provided when listing stops" +:+ nl)
              (requests w) (calls w)))
  ∧ (∀ api key w,
       main api (Args (Some "stops") None None None None None None) key w
       = (Raised (SystemExit 1),
          World (stdout w +:+ "route list must be provided when listing stops" +:+ nl)
                (requests w) (calls w))).
Proof. split; intros; reflexivity. Qed.

(** ** The date of an alert *)

Lemma decimal_2 (n : N) : decimal 2 n = two_digits n.
Proof. reflexivity. Qed.

Lemma decimal_4 (n : N) : decimal 4 n = four_digits n.
Proof.
  unfold four_digits. simpl. rewrite !N.Div0.div_div. reflexivity.
Qed.

Lemma hour12_mod (h : N) :
  (h < 24)%N → (if (h mod 12 =? 0)%N then 12%N else (h mod 12)%N) = hour12 h.
Proof.
  intros Hh. unfold hour12.
  destruct (N.lt_ge_cases h 12) as [Hlt|Hge].
  - rewrite N.mod_small by done.
    destruct (N.eqb_spec h 0); [done|].
    destruct (N.leb_spec h 12); [done|lia].
  - assert (h mod 12 = h - 12)%N as ->.
    { replace h with ((h - 12) + 1 * 12)%N at 1 by lia.
      rewrite N.Div0.mod_add. apply N.mod_small. lia. }
    destruct (N.eqb_spec h 0); [lia|].
    destruct (N.eqb_spec (h - 12) 0), (N.leb_spec h 12); lia.
Qed.

Lemma strftime_date (dt : datetime) :
  (hour dt < 24)%N → strftime dt "%m-%d-%Y %I:%M %p" = spec_date dt.
Proof.
  intros Hh. unfold spec_date. rewrite <- (hour12_mod _ Hh).
  cbn [strftime]. rewrite !decide_True by done.
  repeat (rewrite decide_False by done). cbn [directive].
  rewrite !decimal_2, decimal_4. str_eq.
Qed.

Lemma fromisoformat_str_valid (s : string) (dt : datetime) :
  fromisoformat_str s = Some dt → valid_datetime dt = true.
Proof.
  unfold fromisoformat_str. intros H.
  destruct (parse_isoformat_date s) as [[[[y m] d] rest]|]; [|done].
  simpl in H.
  destruct (match rest with
            | "" | String _ "" => Some (0%N, 0%N, 0%N, 0%N, None)
            | String _ tstr => parse_isoformat_time tstr
            end) as [[[[[h mi] sec] us] tz]|]; [|done].
  simpl in H. by case_match; simplify_eq.
Qed.

(** ** One record *)

(** What a successful [alert_item] tells about the record. *)
Lemma alert_item_inv (alert : value) (it : item) :
  alert_item alert = Done it →
  ∃ attributes created_at dt d e,
    subscript alert "attributes" = Done attributes ∧
    subscript alert "id" = Done (guid it) ∧
    subscript attributes "short_header" = Done (header it) ∧
    subscript attributes "header" = Done (long_header it) ∧
    subscript attributes "created_at" = Done (VStr created_at) ∧
    fromisoformat_str created_at = Some dt ∧
    date it = VStr (strftime dt "%m-%d-%Y %I:%M %p") ∧
    subscript attributes "description" = Done d ∧
    desc it = match d with VNone => VStr "" | _ => d end ∧
    subscript attributes "effect" = Done e ∧
    (e = VNone ∧ effect it = VStr "" ∨
     ∃ s, e = VStr s ∧ effect it = VStr ("Effect: " +:+ s)) ∧
    categories it = [].
Proof.
  unfold alert_item, mbind, outcome_bind. intros H.
  destruct (subscript alert "attributes") as [attributes|] eqn:Ha; [|done].
  destruct (subscript alert "id") as [g|] eqn:Hg; [|done].
  destruct (subscript attributes "short_header") as [h|] eqn:Hh; [|done].
  destruct (subscript attributes "header") as [lh|] eqn:Hlh; [|done].
  destruct (subscript attributes "created_at") as [c|] eqn:Hc; [|done].
  destruct (fromisoformat c) as [dt|] eqn:Hdt; [|done].
  destruct (subscript attributes "description") as [d|] eqn:Hd; [|done].
  destruct (subscript attributes "effect") as [e|] eqn:He; [|done].
  destruct c as [| | |s| |]; try done. simpl in Hdt.
  destruct (fromisoformat_str s) as [dt'|] eqn:Hs; [|done].
  injection Hdt as ->.
  exists attributes, s, dt, d, e.
  destruct e as [| | |es| |]; simpl in H; simplify_eq; simpl;
    repeat split; eauto.
Qed.

(** C4: the date passed to [print_item] is [created_at], read as an ISO
    8601 timestamp, written as [MM-DD-YYYY hh:mm AM/PM]: month, day, hour
    and minute on two digits, the year on four, the hour between 1 and 12
    on a 12-hour clock, a space before [AM] or [PM];
    [2021-03-05T14:30:00-05:00] gives [03-05-2021 02:30 PM]. *)
Theorem alert_date_format :
  (∀ alert it,
     alert_item alert = Done it →
     ∃ attributes created_at dt,
       subscript alert "attributes" = Done attributes ∧
       subscript attributes "created_at" = Done (VStr created_at) ∧
       fromisoformat_str created_at = Some dt ∧
       date it = VStr (spec_date dt) ∧
       String.length (spec_date dt) = 19 ∧
       (1 ≤ month dt ≤ 12 ∧ 1 ≤ day dt ≤ 31 ∧ 1 ≤ year dt ≤ 9999 ∧
        1 ≤ hour12 (hour dt) ≤ 12 ∧ minute dt < 60)%N)
  ∧ fromisoformat_str "2021-03-05T14:30:00-05:00"
    = Some (DateTime 2021 3 5 14 30 0 0 (Some (-18000000000)%Z))
  ∧ spec_date (DateTime 2021 3 5 14 30 0 0 (Some (-18000000000)%Z))
    = "03-05-2021 02:30 PM".
Proof.
  split; [|by vm_compute].
  intros alert it (attributes & s & dt & d & e & Ha & _ & _ & _ & Hc & Hdt
                   & Hdate & _)%alert_item_inv.
  exists attributes, s, dt. repeat (split; [done|]).
  pose proof (fromisoformat_str_valid _ _ Hdt) as Hv.
  unfold valid_datetime in Hv.
  repeat (apply andb_true_iff in Hv as [Hv ?]).
  repeat match goal with H : bool_decide _ = true |- _ =>
    apply bool_decide_eq_true in H end.
  split; [by rewrite Hdate, strftime_date|].
  split.
  { unfold spec_date. by destruct (hour dt <? 12)%N. }
  assert (days_in_month (year dt) (month dt) ≤ 31)%N.
  { unfold days_in_month. repeat case_match; lia. }
  unfold hour12.
  destruct (N.eqb_spec (hour dt) 0), (N.leb_spec (hour dt) 12); lia.
Qed.

Lemma alert_date_format_witness :
  ∃ attributes created_at dt,
    subscript sample_alert "attributes" = Done attributes ∧
    subscript attributes "created_at" = Done (VStr created_at) ∧
    fromisoformat_str created_at = Some dt ∧
    date sample_item = VStr (spec_date dt) ∧
    String.length (spec_date dt) = 19 ∧
    (1 ≤ month dt ≤ 12 ∧ 1 ≤ day dt ≤ 31 ∧ 1 ≤ year dt ≤ 9999 ∧
     1 ≤ hour12 (hour dt) ≤ 12 ∧ minute dt < 60)%N.
Proof.
  apply (proj1 alert_date_format sample_alert sample_item).
  vm_compute. reflexivity.
Defined.

(** ** The sequence of driver calls *)

Lemma extends_nil (w : world) : extends w "" [] [] = w.
Proof.
  destruct w as [out reqs cls]. unfold extends. simpl.
  by rewrite app_nil_r, !(right_id_L [] (++)).
Qed.

Lemma extends_extends w out reqs cs out' reqs' cs' :
  extends (extends w out reqs cs) out' reqs' cs'
  = extends w (out +:+ out') (reqs ++ reqs') (cs ++ cs').
Proof.
  unfold extends. simpl. by rewrite app_assoc, <- !(assoc_L (++)).
Qed.

(** Both drivers accept an item made of strings and write its text. *)
Lemma print_item_strings dr h lh d e t g cs w :
  let it := Item (VStr h) (VStr lh) (VStr d) e (VStr t) (VStr <$> cs) (VStr g) in
  print_item dr it w
  = (Done tt, extends w (rendered dr h lh d t g cs) [] [CallItem it]).
Proof.
  intros it. subst it. destruct w as [out reqs cls]. unfold extends.
  destruct dr as [self|self]; run.
  - rewrite replace_newlines, (right_id_L [] (++)).
    unfold markdown_item. do 2 f_equal. str_eq.
  - rewrite print_categories_strings. simpl.
    rewrite !html_escape_spec, (right_id_L [] (++)).
    unfold rss_item. do 2 f_equal. str_eq.
Qed.

Lemma is_str_inv (v : value) : is_str v = true → ∃ s, v = VStr s.
Proof. destruct v; try done. eauto. Qed.

Lemma forallb_is_str (vs : list value) :
  forallb is_str vs = true → ∃ cs, vs = VStr <$> cs.
Proof.
  induction vs as [|v vs IH]; simpl.
  - by exists [].
  - intros [[s ->]%is_str_inv [cs ->]%IH]%andb_true_iff. by exists (s :: cs).
Qed.

Lemma text_item_inv (it : item) :
  text_item it = true →
  ∃ h lh d e t g cs,
    it = Item (VStr h) (VStr lh) (VStr d) e (VStr t) (VStr <$> cs) (VStr g).
Proof.
  destruct it as [h lh d e t cs g]. unfold text_item. simpl. intros H.
  repeat (apply andb_true_iff in H as [H ?]).
  apply is_str_inv in H as [? ->].
  repeat match goal with
  | H : is_str _ = true |- _ => apply is_str_inv in H as [? ->]
  | H : forallb _ _ = true |- _ => apply forallb_is_str in H as [? ->]
  end.
  by repeat eexists.
Qed.

Lemma print_item_text_item dr it w :
  text_item it = true →
  ∃ out, print_item dr it w = (Done tt, extends w out [] [CallItem it]).
Proof.
  intros (h & lh & d & e & t & g & cs & ->)%text_item_inv.
  rewrite print_item_strings. eauto.
Qed.

Lemma has_inv (m : gmap string value) (key : string) (P : value → bool) :
  has m key P = true → ∃ v, m !! key = Some v ∧ P v = true.
Proof. unfold has. destruct (m !! key) as [v|]; [eauto|done]. Qed.

(** A well-formed alert yields an item, and the item is made of
    strings. *)
Lemma well_formed_alert_item (alert : value) :
  well_formed_alert alert = true →
  ∃ it, alert_item alert = Done it ∧ text_item it = true.
Proof.
  destruct alert as [| | | | |m]; try done. simpl.
  intros [(g & Hg & [gs ->]%is_str_inv)%has_inv Ha]%andb_true_iff.
  destruct (m !! "attributes") as [[| | | | |a]|] eqn:Hattr; try done.
  unfold well_formed_attributes in Ha.
  repeat (apply andb_true_iff in Ha as [Ha ?]).
  repeat match goal with
  | H : has _ _ _ = true |- _ => apply has_inv in H as (? & ? & ?)
  end.
  repeat match goal with
  | H : is_str _ = true |- _ => apply is_str_inv in H as [? ->]
  end.
  match goal with
  | H : readable_date ?v = true |- _ =>
      destruct v as [| | |c| |]; try done;
      apply bool_decide_eq_true in H as [dt Hdt]
  end.
  unfold alert_item, subscript, mbind, outcome_bind.
  repeat match goal with H : _ !! _ = Some _ |- _ => rewrite H; clear H end.
  simpl. rewrite Hdt.
  repeat match goal with
  | H : is_str_or_null ?v = true |- _ => destruct v; try done; clear H
  end; eexists; (split; [reflexivity|done]).
Qed.

Lemma process_alert_item dr alert it w :
  alert_item alert = Done it →
  process_alert dr alert w = print_item dr it w.
Proof. intros H. unfold process_alert, mbind, M_bind, lift. by rewrite H. Qed.

Lemma process_alert_raised dr alert e w :
  alert_item alert = Raised e →
  process_alert dr alert w = (Raised e, w).
Proof. intros H. unfold process_alert, mbind, M_bind, lift. by rewrite H. Qed.

(** The loop over well-formed alerts: one [print_item] call for each, in
    the order of the list. *)
Lemma for_each_well_formed dr (records : list value) (w : world) :
  Forall (λ r, well_formed_alert r = true) records →
  ∃ items out,
    Forall2 (λ r it, alert_item r = Done it) records items ∧
    for_each (process_alert dr) records w
    = (Done tt, extends w out [] (CallItem <$> items)).
Proof.
  intros H. revert w. induction H as [|r records Hr _ IH]; intros w.
  - exists [], "". split; [constructor|]. simpl. by rewrite extends_nil.
  - destruct (well_formed_alert_item r Hr) as (it & Hit & Htext).
    destruct (print_item_text_item dr it w Htext) as [out Hout].
    destruct (IH (extends w out [] [CallItem it])) as (items & out' & Hall & Hrest).
    exists (it :: items), (out +:+ out'). split; [by constructor|].
    cbn [for_each]. unfold mbind, M_bind at 1.
    rewrite (process_alert_item _ _ _ _ Hit), Hout, Hrest.
    by rewrite extends_extends.
Qed.

Lemma print_start_ready dr g w :
  preamble_ready dr g = true →
  ∃ out, print_start dr g w = (Done tt, extends w out [] [CallStart]).
Proof.
  destruct w as [o reqs cls], dr as [self|self]; unfold extends; simpl.
  - intros [[t Ht]%bool_decide_eq_true [d Hd]%bool_decide_eq_true]%andb_true_iff.
    exists ("# " +:+ t +:+ nl +:+ d +:+ nl). run. rewrite Ht, Hd. simpl.
    rewrite (right_id_L [] (++)). do 2 f_equal. str_eq.
  - intros _. eexists. run. rewrite (right_id_L [] (++)).
    do 2 f_equal. rewrite !app_assoc. reflexivity.
Qed.

Lemma print_end_done dr w :
  ∃ out, print_end dr w = (Done tt, extends w out [] [CallEnd]).
Proof.
  destruct w as [o reqs cls], dr as [self|self]; unfold extends; simpl.
  - exists "". run. by rewrite app_nil_r, (right_id_L [] (++)).
  - eexists. run. rewrite (right_id_L [] (++)).
    do 2 f_equal. rewrite !app_assoc. reflexivity.
Qed.

Lemma retrieve_from_api_extends api req w :
  retrieve_from_api api req w
  = (api ("https://api-v3.mbta.com/" +:+ req),
     extends w "" ["https://api-v3.mbta.com/" +:+ req] []).
Proof.
  unfold retrieve_from_api, extends.
  by rewrite app_nil_r, (right_id_L [] (++)).
Qed.

(** C6: on a response whose [data] is a list of well-formed alerts,
    [get_alerts] calls [print_start] once, then [print_item] once for each
    record, in the order of the list and with the item of that record,
    then [print_end] once, and returns; it sends one request. *)
Theorem get_alerts_call_sequence api g dr route time w response records :
  let url := "https://api-v3.mbta.com/" +:+ alerts_req_str time (API_KEY g) route in
  api url = Done response →
  subscript response "data" = Done (VList records) →
  Forall (λ r, well_formed_alert r = true) records →
  preamble_ready dr g = true →
  ∃ items out,
    Forall2 (λ r it, alert_item r = Done it) records items ∧
    get_alerts api g dr route time w
    = (Done tt,
       extends w out [url] ([CallStart] ++ (CallItem <$> items) ++ [CallEnd])).
Proof.
  intros url Hapi Hdata Hrecords Hready.
  destruct (print_start_ready dr g w Hready) as [out1 H1].
  set (w1 := extends w out1 [] [CallStart]) in *.
  set (w2 := extends w1 "" [url] []).
  destruct (for_each_well_formed dr records w2 Hrecords)
    as (items & out2 & Hitems & H2).
  set (w3 := extends w2 out2 [] (CallItem <$> items)) in *.
  destruct (print_end_done dr w3) as [out3 H3].
  exists items, (out1 +:+ out2 +:+ out3). split; [done|].
  unfold get_alerts, mbind, M_bind.
  rewrite H1, retrieve_from_api_extends. fold url. rewrite Hapi.
  unfold lift. rewrite Hdata. simpl. fold w1 w2. rewrite H2. fold w3.
  rewrite H3. unfold w3, w2, w1. by rewrite !extends_extends.
Qed.

Lemma get_alerts_call_sequence_witness :
  ∃ items out,
    Forall2 (λ r it, alert_item r = Done it) [sample_alert; sample_alert] items ∧
    get_alerts sample_api sample_globals (RSSAlertDriver sample_feed)
      (Some "Red") None w0
    = (Done tt,
       extends w0 out ["https://api-v3.mbta.com/alerts?filter[route]=Red"]
         ([CallStart] ++ (CallItem <$> items) ++ [CallEnd])).
Proof.
  apply (get_alerts_call_sequence sample_api sample_globals
           (RSSAlertDriver sample_feed) (Some "Red") None w0 sample_response
           [sample_alert; sample_alert]).
  - reflexivity.
  - reflexivity.
  - repeat constructor.
  - reflexivity.
Defined.

(** ** A record without [description] or [effect] *)

Lemma for_each_app {A : Type} (body : A → M unit) (l1 l2 : list A) (w : world) :
  for_each body (l1 ++ l2) w
  = match for_each body l1 w with
    | (Done _, w') => for_each body l2 w'
    | (Raised e, w') => (Raised e, w')
    end.
Proof.
  revert w. induction l1 as [|x l1 IH]; intros w; [done|].
  cbn [for_each app]. unfold mbind, M_bind.
  destruct (body x w) as [[[]|e] w']; [apply IH|done].
Qed.

(** A record that has its leading fields and lacks one of the two keys
    stops [alert_item] with a [KeyError] for that key. *)
Lemma alert_item_missing_key (alert : value) (key : string) :
  leading_fields alert = true →
  missing_key alert = Some key →
  alert_item alert = Raised (KeyError key).
Proof.
  unfold leading_fields, missing_key, attributes_of.
  destruct alert as [| | | | |m]; try done.
  intros [[g Hg]%bool_decide_eq_true Ha]%andb_true_iff.
  destruct (m !! "attributes") as [[| | | | |a]|] eqn:Hattr; try done.
  repeat (apply andb_true_iff in Ha as [Ha ?]).
  apply bool_decide_eq_true in Ha as [h Hh].
  match goal with H : bool_decide _ = true |- _ =>
    apply bool_decide_eq_true in H as [lh Hlh] end.
  match goal with H : has _ _ _ = true |- _ =>
    apply has_inv in H as (c & Hc & Hread) end.
  destruct c as [| | |c| |]; try done.
  apply bool_decide_eq_true in Hread as [dt Hdt].
  intros Hkey.
  unfold alert_item, subscript, mbind, outcome_bind.
  rewrite Hattr, Hg, Hh, Hlh, Hc. simpl. rewrite Hdt.
  destruct (a !! "description") as [d|]; [|by simplify_eq].
  destruct (a !! "effect") as [e|]; by simplify_eq.
Qed.

(** An item is produced only for a record that has both keys; [desc] and
    [effect] are the empty string only for a null. *)
Lemma alert_item_keys (alert : value) (it : item) :
  alert_item alert = Done it →
  ∃ d e,
    attributes_of alert !! "description" = Some d ∧
    attributes_of alert !! "effect" = Some e ∧
    desc it = match d with VNone => VStr "" | _ => d end ∧
    (e = VNone ∧ effect it = VStr "" ∨
     ∃ s, e = VStr s ∧ effect it = VStr ("Effect: " +:+ s)).
Proof.
  intros (attributes & s & dt & d & e & Ha & _ & _ & _ & _ & _ & _ & Hd & Hdesc
          & He & Heff & _)%alert_item_inv.
  exists d, e. unfold attributes_of.
  destruct alert as [| | | | |m]; try done. simpl in Ha.
  destruct (m !! "attributes") as [attrs|]; [|done]. simplify_eq.
  destruct attributes as [| | | | |a]; try done. simpl in Hd, He.
  destruct (a !! "description"); [|done].
  destruct (a !! "effect"); [|done]. by simplify_eq.
Qed.

(** The loop stops at the first record for which [alert_item] raises:
    the records before it have had their [print_item] call, that record
    and the ones after it have none. *)
Lemma for_each_raised dr (before after : list value) (alert : value) (e : exn) w :
  Forall (λ r, well_formed_alert r = true) before →
  alert_item alert = Raised e →
  ∃ items out,
    Forall2 (λ r it, alert_item r = Done it) before items ∧
    for_each (process_alert dr) (before ++ alert :: after) w
    = (Raised e, extends w out [] (CallItem <$> items)).
Proof.
  intros Hbefore Halert.
  destruct (for_each_well_formed dr before w Hbefore) as (items & out & Hitems & H).
  exists items, out. split; [done|].
  rewrite for_each_app, H. cbn [for_each]. unfold mbind, M_bind.
  by rewrite (process_alert_raised _ _ _ _ Halert).
Qed.

(** C10: when a record of the response has its leading fields but lacks
    the key [description] or the key [effect], [get_alerts] raises
    [KeyError] for the first key that is missing; [print_item] has been
    called for the records before it only, and [print_end] is not called.
    An item is produced only for a record that has both keys, and its
    [desc] and [effect] default to the empty string for a null only; a
    record that lacks one of the keys always ends in an exception, with
    no item and so no [print_item] call. *)
Theorem get_alerts_missing_key :
  (∀ api g dr route time w response before alert after key,
     let url :=
       "https://api-v3.mbta.com/" +:+ alerts_req_str time (API_KEY g) route in
     api url = Done response →
     subscript response "data" = Done (VList (before ++ alert :: after)) →
     Forall (λ r, well_formed_alert r = true) before →
     preamble_ready dr g = true →
     leading_fields alert = true →
     missing_key alert = Some key →
     (key = "description" ∨ key = "effect") ∧
     alert_item alert = Raised (KeyError key) ∧
     ∃ items out,
       Forall2 (λ r it, alert_item r = Done it) before items ∧
       get_alerts api g dr route time w
       = (Raised (KeyError key),
          extends w out [url] ([CallStart] ++ (CallItem <$> items))))
  ∧ (∀ alert it,
       alert_item alert = Done it →
       ∃ d e,
         attributes_of alert !! "description" = Some d ∧
         attributes_of alert !! "effect" = Some e ∧
         desc it = match d with VNone => VStr "" | _ => d end ∧
         (e = VNone ∧ effect it = VStr "" ∨
          ∃ s, e = VStr s ∧ effect it = VStr ("Effect: " +:+ s)))
  ∧ (∀ alert key,
       missing_key alert = Some key → ∃ e, alert_item alert = Raised e).
Proof.
  split; [|split; [apply alert_item_keys|]].
  2: { intros alert key Hkey. destruct (alert_item alert) as [it|e] eqn:Hit; [|eauto].
       apply alert_item_keys in Hit as (d & e & Hd & He & _).
       unfold missing_key in Hkey. by rewrite Hd, He in Hkey. }
  intros api g dr route time w response before alert after key url
    Hapi Hdata Hbefore Hready Hlead Hkey.
  split.
  { unfold missing_key in Hkey. repeat case_match; simplify_eq; auto. }
  pose proof (alert_item_missing_key alert key Hlead Hkey) as Halert.
  split; [done|].
  destruct (print_start_ready dr g w Hready) as [out1 H1].
  set (w1 := extends w out1 [] [CallStart]) in *.
  set (w2 := extends w1 "" [url] []).
  destruct (for_each_raised dr before after alert _ w2 Hbefore Halert)
    as (items & out2 & Hitems & H2).
  exists items, (out1 +:+ out2). split; [done|].
  unfold get_alerts, mbind, M_bind.
  rewrite H1, retrieve_from_api_extends. fold url. rewrite Hapi.
  unfold lift. rewrite Hdata. simpl. fold w1 w2. rewrite H2.
  unfold w2, w1. by rewrite !extends_extends.
Qed.

Lemma get_alerts_missing_key_witness :
  ("effect" = "description" ∨ "effect" = "effect") ∧
  alert_item sample_alert_no_effect = Raised (KeyError "effect") ∧
  ∃ items out,
    Forall2 (λ r it, alert_item r = Done it) [sample_alert] items ∧
    get_alerts (λ _, Done sample_response_no_effect) sample_globals
      (MarkdownAlertDriver sample_feed) None None w0
    = (Raised (KeyError "effect"),
       extends w0 out ["https://api-v3.mbta.com/alerts"]
         ([CallStart] ++ (CallItem <$> items))).
Proof.
  apply (proj1 get_alerts_missing_key (λ _, Done sample_response_no_effect)
           sample_globals (MarkdownAlertDriver sample_feed) None None w0
           sample_response_no_effect [sample_alert] sample_alert_no_effect
           [sample_alert] "effect").
  - reflexivity.
  - reflexivity.
  - repeat constructor.
  - reflexivity.
  - reflexivity.
  - reflexivity.
Defined.

(** ** Searching a text for a word *)

Lemma prefix_nil (s : string) : String.prefix "" s = true.
Proof. by destruct s. Qed.

Lemma prefix_cons (y x : ascii) (r s : string) :
  String.prefix (String y r) (String x s) = bool_decide (x = y) && String.prefix r s.
Proof.
  cbn. destruct (ascii_dec y x) as [->|Hne].
  - by rewrite bool_decide_true.
  - by rewrite bool_decide_false.
Qed.

Lemma contains_cons (p : string) (x : ascii) (s : string) :
  contains p (String x s) = String.prefix p (String x s) || contains p s.
Proof. reflexivity. Qed.

Lemma prefix_contains (p s : string) :
  String.prefix p s = true → contains p s = true.
Proof. intros H. destruct s; cbn [contains]; by rewrite H. Qed.

Lemma suffixes_cons_inv (y : ascii) (r s : string) :
  String y r ∈ suffixes s → has_char y s = true ∧ (r = "" ∨ r ∈ suffixes r).
Proof.
  induction s as [|x s IH]; simpl; [by intros ?%elem_of_nil|].
  intros [Heq|Hin]%elem_of_cons.
  - injection Heq as -> ->. rewrite bool_decide_true by done. split; [done|].
    destruct s; [by left|right; simpl; left].
  - destruct (IH Hin) as [-> ?]. by rewrite orb_true_r.
Qed.

Lemma suffixes_tail (y : ascii) (r s : string) :
  String y r ∈ suffixes s → r = "" ∨ r ∈ suffixes s.
Proof.
  induction s as [|x s IH]; simpl; [by intros ?%elem_of_nil|].
  intros [Heq|Hin]%elem_of_cons.
  - injection Heq as -> ->. destruct s; [by left|right; simpl; right; left].
  - destruct (IH Hin) as [?|?]; [by left|right; by right].
Qed.

Lemma suffixes_self (s : string) : s = "" ∨ s ∈ suffixes s.
Proof. destruct s; [by left|right; simpl; left]. Qed.

(** Membership in a list that is written out. *)
Ltac in_literals :=
  unfold literals, dquote;
  repeat first [apply list_elem_of_here | apply list_elem_of_further].

Section Search.

Variable c : ascii.
Variable q : string.
Hypothesis first_once : has_char c q = false.

Lemma state_nonempty (rem : string) : rem ∈ states c q → rem ≠ "".
Proof.
  unfold states. intros [->|Hin]%elem_of_cons; [done|].
  intros ->. clear first_once. induction q as [|x s IH]; simpl in Hin.
  - by apply elem_of_nil in Hin.
  - apply elem_of_cons in Hin as [?|?]; [done|auto].
Qed.

Lemma step_state (rem : string) (x : ascii) :
  rem ∈ states c q → step c q rem x = "" ∨ step c q rem x ∈ states c q.
Proof.
  intros Hrem. destruct rem as [|y r]; [by left|]. simpl.
  destruct (decide (x = y)) as [->|Hxy].
  - unfold states in *. apply elem_of_cons in Hrem as [Heq|Hin].
    + injection Heq as -> ->.
      destruct (suffixes_self q); [by left|right; by right].
    + destruct (suffixes_tail _ _ _ Hin); [by left|right; by right].
  - destruct (decide (x = c)).
    + destruct (suffixes_self q); [by left|right; by right].
    + right. by left.
Qed.

(** The search finds the word exactly when the text holds it, or starts
    with what was left to match. *)
Lemma scan_None (rem s : string) :
  rem ∈ states c q →
  scan c q rem s = None ↔ String.prefix rem s = true ∨ contains (String c q) s = true.
Proof.
  revert rem. induction s as [|x s IH]; intros rem Hrem.
  - pose proof (state_nonempty rem Hrem). destruct rem; [done|].
    simpl. split; [done|]. by intros [?|?].
  - pose proof (step_state rem x Hrem) as Hstep.
    destruct rem as [|y r]; [by apply state_nonempty in Hrem|].
    cbn [scan]. rewrite prefix_cons, contains_cons, prefix_cons.
    simpl in Hstep |- *.
    destruct (decide (x = y)) as [->|Hxy].
    + rewrite (bool_decide_true (y = y)) by done. simpl.
      assert (bool_decide (y = c) && String.prefix q s = true →
              String.prefix r s = true) as Hword.
      { intros [->%bool_decide_eq_true Hq]%andb_true_iff.
        unfold states in Hrem. apply elem_of_cons in Hrem as [Heq|Hin].
        - by injection Heq as ->.
        - apply suffixes_cons_inv in Hin as [Hc _]. congruence. }
      destruct r as [|z r'].
      * split; [intros _; left; apply prefix_nil|done].
      * destruct Hstep as [?|Hstate]; [done|]. rewrite (IH _ Hstate).
        rewrite orb_true_iff. intuition congruence.
    + rewrite (bool_decide_false (x = y)) by done. simpl.
      destruct (decide (x = c)) as [->|Hxc].
      * rewrite (bool_decide_true (c = c)) by done. simpl.
        destruct q as [|z q'] eqn:Hq.
        { split; [intros _; right; by rewrite prefix_nil|done]. }
        destruct Hstep as [?|Hstate]; [done|]. rewrite (IH _ Hstate).
        rewrite orb_true_iff. intuition congruence.
      * rewrite (bool_decide_false (x = c)) by done. simpl.
        rewrite (IH (String c q)) by by left.
        split; [intros [?%prefix_contains|?]; by right|intros [?|?]; [done|by right]].
Qed.

Lemma scan_contains (s : string) :
  contains (String c q) s = false ↔ is_Some (scan c q (String c q) s).
Proof.
  pose proof (scan_None (String c q) s (ltac:(by left))) as H.
  destruct (scan c q (String c q) s) as [rem|], (contains (String c q) s) eqn:Hc.
  - destruct H as [_ H]. by discriminate H; right.
  - split; eauto.
  - split; [done|by intros [? ?]].
  - destruct H as [H _].
    destruct (H eq_refl) as [?%prefix_contains|?]; congruence.
Qed.

Lemma scan_app (rem a b : string) :
  scan c q rem (a +:+ b) = scan c q rem a ≫= λ rem', scan c q rem' b.
Proof.
  revert rem. induction a as [|x a IH]; intros rem; [done|].
  simpl. destruct (step c q rem x); [done|apply IH].
Qed.

Lemma scan_state (rem s rem' : string) :
  rem ∈ states c q → scan c q rem s = Some rem' → rem' ∈ states c q.
Proof.
  revert rem. induction s as [|x s IH]; intros rem Hrem; simpl.
  - by intros [= ->].
  - destruct (step_state rem x Hrem) as [->|Hstate]; [done|].
    destruct (step c q rem x) eqn:Hstep; [done|]. by apply IH.
Qed.

(** Text without the word leaves the search in one of its states. *)
Lemma scan_free (f : string) :
  contains (String c q) f = false →
  ∃ rem, rem ∈ states c q ∧ scan c q (String c q) f = Some rem.
Proof.
  intros [rem Hrem]%scan_contains. exists rem. split; [|done].
  eapply scan_state; [|done]. by left.
Qed.

Lemma resets_spec (t rem : string) :
  resets c q t = true → rem ∈ states c q → scan c q rem t = Some (String c q).
Proof.
  unfold resets. rewrite forallb_forall. intros H Hrem.
  eapply bool_decide_eq_true_1, H. by apply list_elem_of_In.
Qed.

(** Text without the first character of the word keeps the search at its
    start. *)
Lemma scan_no_first (s : string) :
  has_char c s = false → scan c q (String c q) s = Some (String c q).
Proof.
  induction s as [|x s IH]; [done|]. simpl.
  intros [Hx%bool_decide_eq_false Hs]%orb_false_iff.
  rewrite decide_False by done. rewrite decide_False by done. by apply IH.
Qed.

Lemma no_first_free (s : string) :
  has_char c s = false → contains (String c q) s = false.
Proof. intros H. apply scan_contains. rewrite scan_no_first; eauto. Qed.

(** The fixed text of the drivers resets the search. *)
Hypothesis literals_reset : forallb (resets c q) literals = true.

Lemma literal_resets (t rem : string) :
  t ∈ literals → rem ∈ states c q → scan c q rem t = Some (String c q).
Proof.
  intros Ht Hrem. apply resets_spec; [|done].
  pose proof literals_reset as H. rewrite forallb_forall in H.
  by apply H, list_elem_of_In.
Qed.

Lemma scan_literal (t rest rem : string) :
  t ∈ literals → rem ∈ states c q →
  scan c q rem (t +:+ rest) = scan c q (String c q) rest.
Proof. intros Ht Hrem. by rewrite scan_app, literal_resets. Qed.

Lemma scan_field (f t rest : string) :
  contains (String c q) f = false → t ∈ literals →
  scan c q (String c q) (f +:+ t +:+ rest) = scan c q (String c q) rest.
Proof.
  intros (rem & Hrem & Hf)%scan_free Ht.
  rewrite scan_app, Hf. simpl. by apply scan_literal.
Qed.

Lemma scan_escape_char (x : ascii) (rem : string) :
  rem ∈ states c q →
  scan c q rem (escape_char x) = scan c q rem (String x "").
Proof.
  intros Hrem. unfold escape_char.
  repeat case_decide; subst; try done;
    rewrite !literal_resets; try done; in_literals.
Qed.

(** Escaping a text does not change what the search finds in it. *)
Lemma scan_escape (f rem : string) :
  rem ∈ states c q → scan c q rem (spec_escape f) = scan c q rem f.
Proof.
  revert rem. induction f as [|x f IH]; intros rem Hrem; [done|].
  cbn [spec_escape]. rewrite scan_app, scan_escape_char by done.
  cbn [scan]. destruct (step_state rem x Hrem) as [->|Hstate]; [done|].
  destruct (step c q rem x) eqn:Hstep; [done|]. simpl. by apply IH.
Qed.

Lemma scan_double_newlines (f rem : string) :
  rem ∈ states c q → scan c q rem (spec_double_newlines f) = scan c q rem f.
Proof.
  revert rem. induction f as [|x f IH]; intros rem Hrem; [done|].
  cbn [spec_double_newlines]. case_decide as Hx.
  - subst x. change (String "010" f) with (nl +:+ f).
    rewrite !(scan_literal nl) by first [done | by left | in_literals].
    by apply IH; left.
  - cbn [scan]. destruct (step_state rem x Hrem) as [->|Hstate]; [done|].
    destruct (step c q rem x) eqn:Hstep; [done|]. by apply IH.
Qed.

Lemma escape_free (f : string) :
  contains (String c q) f = false → contains (String c q) (spec_escape f) = false.
Proof.
  rewrite !scan_contains, scan_escape; [done|by left].
Qed.

Lemma double_newlines_free (f : string) :
  contains (String c q) f = false →
  contains (String c q) (spec_double_newlines f) = false.
Proof.
  rewrite !scan_contains, scan_double_newlines; [done|by left].
Qed.

Lemma scan_category_lines (cs : list string) (rest : string) :
  Forall (λ x, contains (String c q) x = false) cs →
  scan c q (String c q) (category_lines cs +:+ rest) = scan c q (String c q) rest.
Proof.
  induction 1 as [|x cs Hx _ IH]; [done|].
  cbn [category_lines]. rewrite !app_assoc.
  rewrite scan_literal by first [by left | in_literals].
  rewrite scan_field by first [done | in_literals].
  rewrite scan_literal by first [by left | in_literals]. done.
Qed.

(** An item whose fields do not hold the word does not hold it once it is
    rendered, by either driver. *)
Lemma rendered_free dr (h lh d t g : string) (cs : list string) :
  contains (String c q) h = false →
  contains (String c q) lh = false →
  contains (String c q) d = false →
  contains (String c q) t = false →
  contains (String c q) g = false →
  Forall (λ x, contains (String c q) x = false) cs →
  contains (String c q) (rendered dr h lh d t g cs) = false.
Proof.
  intros Hh Hlh Hd Ht Hg Hcs. apply scan_contains.
  pose proof (escape_free _ Hh). pose proof (escape_free _ Hlh).
  pose proof (escape_free _ Hd). pose proof (double_newlines_free _ Hd).
  destruct dr as [self|self]; unfold rendered, markdown_item, rss_item.
  - repeat first
      [ rewrite scan_literal by first [by left | in_literals]
      | rewrite scan_field by first [done | in_literals] ].
    rewrite literal_resets by first [by left | in_literals]. eauto.
  - repeat first
      [ rewrite scan_literal by first [by left | in_literals]
      | rewrite scan_field by first [done | in_literals]
      | rewrite scan_category_lines by done ].
    rewrite literal_resets by first [by left | in_literals]. eauto.
Qed.

(** The description portion holds the word exactly when the long header
    and the description do, one after the other. *)
Lemma description_portion_null dr (lh : string) :
  contains (String c q) (description_portion dr lh "")
  = contains (String c q) lh.
Proof.
  assert (is_Some (scan c q (String c q) (description_portion dr lh ""))
          ↔ is_Some (scan c q (String c q) lh)) as Hiff.
  { destruct dr as [self|self]; unfold description_portion;
      cbn [spec_double_newlines spec_escape]; rewrite app_nil_l.
    - rewrite scan_app.
      destruct (scan c q (String c q) lh) as [rem|] eqn:Hlh;
        [|by split; intros [? ?]].
      pose proof (scan_state _ _ _ (ltac:(by left)) Hlh) as Hrem.
      cbn [mbind option_bind].
      repeat rewrite scan_literal by first [done | by left | in_literals].
      rewrite literal_resets by first [by left | in_literals]. split; eauto.
    - rewrite scan_literal by first [by left | in_literals].
      rewrite scan_app, scan_escape by by left.
      destruct (scan c q (String c q) lh) as [rem|] eqn:Hlh;
        [|by split; intros [? ?]].
      pose proof (scan_state _ _ _ (ltac:(by left)) Hlh) as Hrem.
      cbn [mbind option_bind].
      repeat rewrite scan_literal by first [done | by left | in_literals].
      rewrite literal_resets by first [by left | in_literals]. split; eauto. }
  rewrite <- !scan_contains in Hiff.
  destruct (contains (String c q) (description_portion dr lh "")),
    (contains (String c q) lh); try done.
  - by destruct Hiff as [_ ->].
  - by destruct Hiff as [-> _].
Qed.

End Search.

Lemma prefix_trans (p p' s : string) :
  String.prefix p p' = true → String.prefix p' s = true → String.prefix p s = true.
Proof.
  revert p' s. induction p as [|x p IH]; intros p' s;
    [intros _ _; apply prefix_nil|].
  destruct p' as [|y p']; [done|]. destruct s as [|z s]; [done|].
  rewrite !prefix_cons.
  intros [->%bool_decide_eq_true ?]%andb_true_iff
         [->%bool_decide_eq_true ?]%andb_true_iff.
  rewrite bool_decide_true by done. simpl. eauto.
Qed.

(** A text that holds a word holds every beginning of that word. *)
Lemma contains_prefix (p p' s : string) :
  String.prefix p p' = true → contains p' s = true → contains p s = true.
Proof.
  intros Hp. induction s as [|x s IH].
  - cbn [contains]. rewrite !orb_false_r. by apply prefix_trans.
  - rewrite !contains_cons.
    intros [H|H]%orb_true_iff; apply orb_true_iff; [left|right; auto].
    by apply (prefix_trans _ p').
Qed.

Lemma has_char_app (c : ascii) (a b : string) :
  has_char c (a +:+ b) = has_char c a || has_char c b.
Proof.
  induction a as [|x a IH]; [done|]. simpl. by rewrite IH, orb_assoc.
Qed.

Lemma digit_char_other (c : ascii) (n : N) :
  has_char c "0123456789" = false →
  bool_decide (digit_char (n mod 10) = c) = false.
Proof.
  intros Hc. simpl in Hc.
  repeat (apply orb_false_iff in Hc as [?%bool_decide_eq_false Hc]).
  apply bool_decide_eq_false.
  pose proof (N.mod_upper_bound n 10 ltac:(done)) as Hlt.
  remember (N.to_nat (n mod 10)) as k eqn:Hk.
  assert (n mod 10 = N.of_nat k)%N as -> by lia.
  assert (k < 10) as Hk10 by lia. clear Hk Hlt.
  do 10 (destruct k as [|k]; [done|]). lia.
Qed.

(** A formatted date holds only the characters of [date_chars]. *)
Lemma spec_date_chars (c : ascii) (dt : datetime) :
  has_char c date_chars = false → has_char c (spec_date dt) = false.
Proof.
  intros Hc.
  assert (has_char c "0123456789" = false) as Hdigits.
  { unfold date_chars in Hc.
    change "0123456789-: APM" with ("0123456789" +:+ "-: APM") in Hc.
    rewrite has_char_app in Hc. by apply orb_false_iff in Hc as [? _]. }
  unfold date_chars in Hc. simpl in Hc.
  repeat (apply orb_false_iff in Hc as [? Hc]).
  unfold spec_date, two_digits, four_digits.
  rewrite !has_char_app. cbn [has_char].
  rewrite !digit_char_other by done.
  destruct (hour dt <? 12)%N; cbn [has_char];
    repeat match goal with H : bool_decide _ = false |- _ => rewrite H end;
    done.
Qed.

(** ** Null description, null effect *)

Lemma attributes_of_lookup (alert attributes v : value) (key : string) :
  subscript alert "attributes" = Done attributes →
  subscript attributes key = Done v →
  attributes_of alert !! key = Some v.
Proof.
  unfold attributes_of. destruct alert as [| | | | |m]; try done. simpl.
  destruct (m !! "attributes") as [a|]; [|done]. intros [= ->].
  destruct attributes as [| | | | |a]; try done. simpl.
  by destruct (a !! key); intros [= ->].
Qed.

Lemma effect_literals : forallb (resets "E" "ffect:") literals = true.
Proof. by vm_compute. Qed.

Lemma none_literals : forallb (resets "N" "one") literals = true.
Proof. by vm_compute. Qed.

(** The text of an item is the same whatever its [effect]: neither
    driver writes it. *)
Lemma print_item_ignores_effect dr h lh d e e' t g cs w :
  let it := Item (VStr h) (VStr lh) (VStr d) e (VStr t) (VStr <$> cs) (VStr g) in
  let it' := Item (VStr h) (VStr lh) (VStr d) e' (VStr t) (VStr <$> cs) (VStr g) in
  (print_item dr it w).1 = (print_item dr it' w).1 ∧
  stdout (print_item dr it w).2 = stdout (print_item dr it' w).2.
Proof. intros it it'. subst it it'. by rewrite !print_item_strings. Qed.

Lemma rendered_description_portion dr h lh d t g cs :
  ∃ before after,
    rendered dr h lh d t g cs = before +:+ description_portion dr lh d +:+ after.
Proof.
  destruct dr as [self|self]; unfold rendered, description_portion.
  - exists ("## " +:+ h +:+ " (added " +:+ t +:+ ")" +:+ nl), "".
    unfold markdown_item. rewrite !app_assoc, app_nil_r. reflexivity.
  - exists ("<item>" +:+ nl +:+ "<title>" +:+ spec_escape h +:+ "</title>" +:+ nl),
      ("<pubDate>" +:+ t +:+ "</pubDate>" +:+ nl +:+
       "<guid>" +:+ g +:+ "</guid>" +:+ nl +:+ category_lines cs +:+
       "</item>" +:+ nl).
    unfold rss_item. rewrite !app_assoc. reflexivity.
Qed.

(** C5, amended: for a well-formed record, a null description
    is passed as the empty string and the description portion of the
    rendered item is the long header and the fixed text around it, so it
    holds [None] exactly when the long header does; a null effect is
    passed as the empty string and a string effect [s] as [Effect: s];
    neither driver writes the effect, and [Effect: ] is nowhere in the
    rendered item when the record's short header, header, description and
    id do not hold [Effect:]. *)
Theorem null_description_and_effect dr alert w :
  well_formed_alert alert = true →
  ∃ h lh d e t g,
    let it := Item (VStr h) (VStr lh) (VStr d) (VStr e) (VStr t) [] (VStr g) in
    alert_item alert = Done it ∧
    subscript alert "id" = Done (VStr g) ∧
    attributes_of alert !! "short_header" = Some (VStr h) ∧
    attributes_of alert !! "header" = Some (VStr lh) ∧
    (attributes_of alert !! "description" = Some VNone ∧ d = "" ∨
     attributes_of alert !! "description" = Some (VStr d)) ∧
    (attributes_of alert !! "effect" = Some VNone ∧ e = "" ∨
     ∃ s, attributes_of alert !! "effect" = Some (VStr s) ∧ e = "Effect: " +:+ s) ∧
    print_item dr it w
    = (Done tt, extends w (rendered dr h lh d t g []) [] [CallItem it]) ∧
    (∃ before after,
       rendered dr h lh d t g []
       = before +:+ description_portion dr lh d +:+ after) ∧
    (attributes_of alert !! "description" = Some VNone →
     contains "None" (description_portion dr lh d) = contains "None" lh) ∧
    (contains "Effect:" h = false → contains "Effect:" lh = false →
     contains "Effect:" d = false → contains "Effect:" g = false →
     contains "Effect: " (rendered dr h lh d t g []) = false).
Proof.
  intros Hwf.
  destruct (well_formed_alert_item alert Hwf) as (it & Hit & Htext).
  destruct (alert_item_inv alert it Hit)
    as (attributes & c & dt & dv & ev & Ha & Hg & Hh & Hlh & Hc & Hdt & Hdate
        & Hd & Hdesc & He & Heff & Hcs).
  apply text_item_inv in Htext as (h & lh & d & e & t & g & cs & ->).
  cbn [header long_header desc effect date categories guid] in *.
  destruct cs; [|done]. clear Hcs.
  pose proof (attributes_of_lookup _ _ _ _ Ha Hh) as Hh'.
  pose proof (attributes_of_lookup _ _ _ _ Ha Hlh) as Hlh'.
  pose proof (attributes_of_lookup _ _ _ _ Ha Hd) as Hd'.
  pose proof (attributes_of_lookup _ _ _ _ Ha He) as He'.
  assert (t = spec_date dt) as Ht.
  { injection Hdate as ->. apply strftime_date.
    pose proof (fromisoformat_str_valid _ _ Hdt) as Hv.
    unfold valid_datetime in Hv.
    repeat (apply andb_true_iff in Hv as [Hv ?]).
    repeat match goal with H : bool_decide _ = true |- _ =>
      apply bool_decide_eq_true in H end. done. }
  assert (∃ es, e = VStr es ∧
            (attributes_of alert !! "effect" = Some VNone ∧ es = "" ∨
             ∃ s, attributes_of alert !! "effect" = Some (VStr s) ∧
                  es = "Effect: " +:+ s)) as (es & -> & Hes).
  { destruct Heff as [[-> ->]|(s & -> & ->)]; eexists; split; eauto. }
  exists h, lh, d, es, t, g. cbv zeta.
  split; [done|]. split; [done|]. split; [done|]. split; [done|].
  assert (dv = VNone ∧ d = "" ∨ dv = VStr d) as Hdv.
  { destruct dv; simplify_eq; auto. }
  split. { destruct Hdv as [[-> ->]| ->]; auto. }
  split; [done|].
  split. { apply (print_item_strings dr h lh d (VStr es) t g []). }
  split. { apply rendered_description_portion. }
  split.
  { intros Hnull. rewrite Hd' in Hnull. injection Hnull as ->.
    destruct Hdv as [[_ ->]|?]; [|done].
    by apply (description_portion_null "N" "one"), none_literals. }
  intros Fh Flh Fd Fg.
  destruct (contains "Effect: " (rendered dr h lh d t g [])) eqn:Hc'; [|done].
  apply (contains_prefix "Effect:") in Hc'; [|done].
  assert (contains "Effect:" t = false) as Ft.
  { subst t. by apply no_first_free, spec_date_chars. }
  by rewrite (rendered_free "E" "ffect:" eq_refl effect_literals
                dr h lh d t g [] Fh Flh Fd Ft Fg (Forall_nil_2 _)) in Hc'.
Qed.

Lemma null_description_and_effect_witness :
  ∃ h lh d e t g,
    let it := Item (VStr h) (VStr lh) (VStr d) (VStr e) (VStr t) [] (VStr g) in
    alert_item sample_alert = Done it ∧
    subscript sample_alert "id" = Done (VStr g) ∧
    attributes_of sample_alert !! "short_header" = Some (VStr h) ∧
    attributes_of sample_alert !! "header" = Some (VStr lh) ∧
    (attributes_of sample_alert !! "description" = Some VNone ∧ d = "" ∨
     attributes_of sample_alert !! "description" = Some (VStr d)) ∧
    (attributes_of sample_alert !! "effect" = Some VNone ∧ e = "" ∨
     ∃ s, attributes_of sample_alert !! "effect" = Some (VStr s) ∧
          e = "Effect: " +:+ s) ∧
    print_item (RSSAlertDriver sample_feed) it w0
    = (Done tt,
       extends w0 (rendered (RSSAlertDriver sample_feed) h lh d t g []) []
         [CallItem it]) ∧
    (∃ before after,
       rendered (RSSAlertDriver sample_feed) h lh d t g []
       = before +:+ description_portion (RSSAlertDriver sample_feed) lh d +:+ after) ∧
    (attributes_of sample_alert !! "description" = Some VNone →
     contains "None" (description_portion (RSSAlertDriver sample_feed) lh d)
     = contains "None" lh) ∧
    (contains "Effect:" h = false → contains "Effect:" lh = false →
     contains "Effect:" d = false → contains "Effect:" g = false →
     contains "Effect: " (rendered (RSSAlertDriver sample_feed) h lh d t g [])
     = false).
Proof.
  apply (null_description_and_effect (RSSAlertDriver sample_feed) sample_alert w0).
  reflexivity.
Defined.

(** C5 as first stated, that [Effect: ] is nowhere in the rendered item
    of a record with a null [effect], fails on an alert whose short
    header holds that text: both drivers write the header, and the text
    with it. *)
Lemma effect_text_counterexample :
  attributes_of sample_alert_effect_text !! "effect" = Some VNone ∧
  alert_item sample_alert_effect_text = Done sample_item_effect_text ∧
  contains "Effect: "
    (stdout (print_item (RSSAlertDriver sample_feed) sample_item_effect_text w0).2)
  = true ∧
  contains "Effect: "
    (stdout (print_item (MarkdownAlertDriver sample_feed) sample_item_effect_text w0).2)
  = true.
Proof. by vm_compute. Qed.

(* ================================================================== *)
(** * Further properties *)

(** ** Whole runs of [get_alerts] *)

Lemma print_start_text dr g w :
  preamble_ready dr g = true →
  print_start dr g w = (Done tt, extends w (preamble_text dr g) [] [CallStart]).
Proof.
  destruct w as [o reqs cls], dr as [self|self]; unfold extends; simpl.
  - intros [[t Ht]%bool_decide_eq_true [d Hd]%bool_decide_eq_true]%andb_true_iff.
    run. rewrite Ht, Hd. simpl.
    rewrite (right_id_L [] (++)). do 2 f_equal. str_eq.
  - intros _. run. rewrite (right_id_L [] (++)). do 2 f_equal. str_eq.
Qed.

Lemma print_end_text dr w :
  print_end dr w = (Done tt, extends w (postamble_text dr) [] [CallEnd]).
Proof.
  destruct w as [o reqs cls], dr as [self|self]; unfold extends; run;
    rewrite (right_id_L [] (++)); do 2 f_equal; str_eq.
Qed.

Lemma str_of_strings (cs : list string) : str_of <$> (VStr <$> cs) = cs.
Proof. induction cs as [|c cs IH]; [done|]. cbn. by f_equal. Qed.

Lemma print_item_text dr it w :
  text_item it = true →
  print_item dr it w = (Done tt, extends w (item_text dr it) [] [CallItem it]).
Proof.
  intros (h & lh & d & e & t & g & cs & ->)%text_item_inv.
  rewrite print_item_strings. unfold item_text.
  cbn [header long_header desc date guid categories str_of].
  by rewrite str_of_strings.
Qed.

(** The loop over well-formed alerts writes the text of their items, one
    after the other. *)
Lemma for_each_text dr (records : list value) (w : world) :
  Forall (λ r, well_formed_alert r = true) records →
  ∃ items,
    Forall2 (λ r it, alert_item r = Done it) records items ∧
    for_each (process_alert dr) records w
    = (Done tt, extends w (items_text dr items) [] (CallItem <$> items)).
Proof.
  intros H. revert w. induction H as [|r records Hr _ IH]; intros w.
  - exists []. split; [constructor|]. simpl. by rewrite extends_nil.
  - destruct (well_formed_alert_item r Hr) as (it & Hit & Htext).
    destruct (IH (extends w (item_text dr it) [] [CallItem it]))
      as (items & Hall & Hrest).
    exists (it :: items). split; [by constructor|].
    cbn [for_each]. unfold mbind, M_bind at 1.
    rewrite (process_alert_item _ _ _ _ Hit), (print_item_text _ _ _ Htext), Hrest.
    by rewrite extends_extends.
Qed.

Lemma get_alerts_unfold api g dr route time w :
  preamble_ready dr g = true →
  let url := "https://api-v3.mbta.com/" +:+ alerts_req_str time (API_KEY g) route in
  let w1 := extends w (preamble_text dr g) [url] [CallStart] in
  get_alerts api g dr route time w
  = match api url with
    | Raised e => (Raised e, w1)
    | Done response =>
        match subscript response "data" with
        | Raised e => (Raised e, w1)
        | Done data =>
            match iterate data with
            | Raised e => (Raised e, w1)
            | Done records =>
                match for_each (process_alert dr) records w1 with
                | (Done _, w2) => print_end dr w2
                | (Raised e, w2) => (Raised e, w2)
                end
            end
        end
    end.
Proof.
  intros Hready url w1. unfold get_alerts, mbind, M_bind.
  rewrite (print_start_text _ _ _ Hready), retrieve_from_api_extends.
  fold url. rewrite extends_extends. simpl. rewrite app_nil_r. fold w1.
  destruct (api url) as [response|e]; [|done]. unfold lift.
  destruct (subscript response "data") as [data|e]; [|done].
  by destruct (iterate data) as [records|e].
Qed.

(** X1: when the request fails, [get_alerts] has already written the
    preamble; the exception goes on to the caller, no item is printed and
    [print_end] is not called. *)
Theorem get_alerts_request_fails api g dr route time w e :
  let url := "https://api-v3.mbta.com/" +:+ alerts_req_str time (API_KEY g) route in
  preamble_ready dr g = true →
  api url = Raised e →
  get_alerts api g dr route time w
  = (Raised e, extends w (preamble_text dr g) [url] [CallStart]).
Proof.
  intros url Hready Hapi. rewrite get_alerts_unfold by done. fold url.
  by rewrite Hapi.
Qed.

Lemma get_alerts_request_fails_witness :
  get_alerts (λ _, Raised RequestError) sample_globals
    (RSSAlertDriver sample_feed) None None w0
  = (Raised RequestError,
     extends w0 (preamble_text (RSSAlertDriver sample_feed) sample_globals)
       ["https://api-v3.mbta.com/alerts"] [CallStart]).
Proof.
  apply (get_alerts_request_fails (λ _, Raised RequestError) sample_globals
           (RSSAlertDriver sample_feed) None None w0 RequestError).
  - reflexivity.
  - reflexivity.
Defined.

(** X2: a response that is no dictionary, has no [data] key, or whose
    [data] is null, a boolean or a number makes [get_alerts] raise
    [TypeError], [KeyError] for [data], or [TypeError], after the preamble
    and the request and before any item. *)
Theorem get_alerts_no_records api g dr route time w response e :
  let url := "https://api-v3.mbta.com/" +:+ alerts_req_str time (API_KEY g) route in
  preamble_ready dr g = true →
  api url = Done response →
  no_records response = Some e →
  get_alerts api g dr route time w
  = (Raised e, extends w (preamble_text dr g) [url] [CallStart]).
Proof.
  intros url Hready Hapi Hno. rewrite get_alerts_unfold by done. fold url.
  rewrite Hapi. unfold no_records in Hno.
  destruct response as [| | | | |m]; simplify_eq/=; try done.
  destruct (m !! "data") as [[]|]; by simplify_eq/=.
Qed.

Lemma get_alerts_no_records_witness :
  get_alerts (λ _, Done (VDict ∅)) sample_globals
    (MarkdownAlertDriver sample_feed) None None w0
  = (Raised (KeyError "data"),
     extends w0 (preamble_text (MarkdownAlertDriver sample_feed) sample_globals)
       ["https://api-v3.mbta.com/alerts"] [CallStart]).
Proof.
  apply (get_alerts_no_records (λ _, Done (VDict ∅)) sample_globals
           (MarkdownAlertDriver sample_feed) None None w0 (VDict ∅)
           (KeyError "data")).
  - reflexivity.
  - reflexivity.
  - reflexivity.
Defined.

Lemma for_each_raised_text dr (before after : list value) (alert : value)
    (e : exn) w :
  Forall (λ r, well_formed_alert r = true) before →
  alert_item alert = Raised e →
  ∃ items,
    Forall2 (λ r it, alert_item r = Done it) before items ∧
    for_each (process_alert dr) (before ++ alert :: after) w
    = (Raised e, extends w (items_text dr items) [] (CallItem <$> items)).
Proof.
  intros Hbefore Halert.
  destruct (for_each_text dr before w Hbefore) as (items & Hitems & H).
  exists items. split; [done|].
  rewrite for_each_app, H. cbn [for_each]. unfold mbind, M_bind.
  by rewrite (process_alert_raised _ _ _ _ Halert).
Qed.

(** X3: [get_alerts] stops at the first record from which no item can be
    made, with the exception that record raises: the output holds the
    preamble and the full text of the items before it, nothing of the
    records after it and no postamble. *)
Theorem get_alerts_stops_at_failure api g dr route time w response
    before alert after e :
  let url := "https://api-v3.mbta.com/" +:+ alerts_req_str time (API_KEY g) route in
  preamble_ready dr g = true →
  api url = Done response →
  subscript response "data" = Done (VList (before ++ alert :: after)) →
  Forall (λ r, well_formed_alert r = true) before →
  alert_item alert = Raised e →
  ∃ items,
    Forall2 (λ r it, alert_item r = Done it) before items ∧
    get_alerts api g dr route time w
    = (Raised e,
       extends w (preamble_text dr g +:+ items_text dr items) [url]
         ([CallStart] ++ (CallItem <$> items))).
Proof.
  intros url Hready Hapi Hdata Hbefore Halert.
  rewrite get_alerts_unfold by done. fold url. rewrite Hapi, Hdata. simpl.
  destruct (for_each_raised_text dr before after alert e
              (extends w (preamble_text dr g) [url] [CallStart]) Hbefore Halert)
    as (items & Hitems & ->).
  exists items. split; [done|]. rewrite extends_extends.
  by rewrite (right_id_L [] (++)).
Qed.

Lemma get_alerts_stops_at_failure_witness :
  ∃ items,
    Forall2 (λ r it, alert_item r = Done it) [sample_alert] items ∧
    get_alerts (λ _, Done sample_response_bad_date) sample_globals
      (RSSAlertDriver sample_feed) None None w0
    = (Raised ValueError,
       extends w0
         (preamble_text (RSSAlertDriver sample_feed) sample_globals +:+
          items_text (RSSAlertDriver sample_feed) items)
         ["https://api-v3.mbta.com/alerts"]
         ([CallStart] ++ (CallItem <$> items))).
Proof.
  apply (get_alerts_stops_at_failure (λ _, Done sample_response_bad_date)
           sample_globals (RSSAlertDriver sample_feed) None None w0
           sample_response_bad_date [sample_alert] sample_alert_bad_date
           [sample_alert] ValueError).
  - reflexivity.
  - reflexivity.
  - reflexivity.
  - repeat constructor.
  - reflexivity.
Defined.

(** X4: a record with its [id] and its two headers whose [created_at] is
    not a timestamp [fromisoformat] reads raises [ValueError] when it is a
    string and [TypeError] when it is not, whatever its [description] and
    [effect] are, even missing. *)
Theorem alert_item_unreadable_date (m a : gmap string value) (c : value) :
  m !! "attributes" = Some (VDict a) →
  is_Some (m !! "id") →
  is_Some (a !! "short_header") →
  is_Some (a !! "header") →
  a !! "created_at" = Some c →
  readable_date c = false →
  alert_item (VDict m) = Raised (if is_str c then ValueError else TypeError).
Proof.
  intros Ha [g Hg] [h Hh] [lh Hlh] Hc Hread.
  unfold alert_item, subscript, mbind, outcome_bind.
  rewrite Ha, Hg, Hh, Hlh, Hc.
  destruct c as [| | |s| |]; try done. simpl in *.
  apply bool_decide_eq_false in Hread.
  destruct (fromisoformat_str s) as [dt|] eqn:Hs; [|done].
  by destruct Hread.
Qed.

Lemma alert_item_unreadable_date_witness :
  alert_item sample_alert_bad_date = Raised ValueError.
Proof.
  apply (alert_item_unreadable_date
           (<["id" := VStr "382313"]>
              (<["attributes" :=
                   VDict (<["created_at" := VStr "yesterday"]> sample_attributes)]> ∅))
           (<["created_at" := VStr "yesterday"]> sample_attributes)
           (VStr "yesterday")).
  - reflexivity.
  - by eexists.
  - by eexists.
  - by eexists.
  - reflexivity.
  - reflexivity.
Defined.

(** On well-formed alerts [get_alerts] writes the whole feed. *)
Lemma get_alerts_feed api g dr route time w response records :
  let url := "https://api-v3.mbta.com/" +:+ alerts_req_str time (API_KEY g) route in
  preamble_ready dr g = true →
  api url = Done response →
  subscript response "data" = Done (VList records) →
  Forall (λ r, well_formed_alert r = true) records →
  ∃ items,
    Forall2 (λ r it, alert_item r = Done it) records items ∧
    get_alerts api g dr route time w
    = (Done tt,
       extends w
         (preamble_text dr g +:+ items_text dr items +:+ postamble_text dr)
         [url] ([CallStart] ++ (CallItem <$> items) ++ [CallEnd])).
Proof.
  intros url Hready Hapi Hdata Hrecords.
  rewrite get_alerts_unfold by done. fold url. rewrite Hapi, Hdata. simpl.
  destruct (for_each_text dr records
              (extends w (preamble_text dr g) [url] [CallStart]) Hrecords)
    as (items & Hitems & ->).
  exists items. split; [done|].
  rewrite print_end_text, !extends_extends.
  by rewrite ?(right_id_L [] (++)), ?app_assoc, <- ?(assoc_L (++)).
Qed.

(** X5: run as a script on alerts, with a known output format and a
    response of well-formed alerts, the program writes the preamble with
    the title and the description of the command line (or the defaults),
    for Markdown as for RSS, then the text of each item in the order of
    the response, then the postamble, and returns after one request. *)
Theorem main_alerts_feed api args key w response records :
  let dr := script_driver args in
  let url :=
    "https://api-v3.mbta.com/" +:+
    alerts_req_str (arg_time args) key (arg_routes args) in
  known_output (arg_output args) = true →
  default DEFAULT_DATATYPE (arg_datatype args) = "alerts" →
  api url = Done response →
  subscript response "data" = Done (VList records) →
  Forall (λ r, well_formed_alert r = true) records →
  ∃ items,
    Forall2 (λ r it, alert_item r = Done it) records items ∧
    main api args key w
    = (Done tt,
       extends w (own_preamble dr +:+ items_text dr items +:+ postamble_text dr)
         [url] ([CallStart] ++ (CallItem <$> items) ++ [CallEnd])).
Proof.
  intros dr url Hout Hdt Hapi Hdata Hrecords.
  set (g := Globals (Some (default DEFAULT_TITLE (arg_title args)))
                    (Some (default DEFAULT_DESC (arg_description args)))
                    (Some dr) key).
  assert (main api args key w
          = get_alerts api g dr (arg_routes args) (arg_time args) w) as ->.
  { unfold main, g, dr, script_driver, script_feed. rewrite Hdt.
    destruct (arg_output args) as [fmt|]; [|done]. simpl in Hout.
    apply orb_true_iff in Hout
      as [->%bool_decide_eq_true| ->%bool_decide_eq_true]; done. }
  assert (preamble_ready dr g = true) as Hready.
  { unfold dr, script_driver. by repeat case_match. }
  destruct (get_alerts_feed api g dr (arg_routes args) (arg_time args) w
              response records Hready Hapi Hdata Hrecords)
    as (items & Hitems & ->).
  exists items. split; [done|].
  assert (preamble_text dr g = own_preamble dr) as ->; [|done].
  unfold dr, script_driver. by repeat case_match.
Qed.

Lemma main_alerts_feed_witness :
  ∃ items,
    Forall2 (λ r it, alert_item r = Done it) [sample_alert; sample_alert] items ∧
    main sample_api
      (Args None (Some "md") None None (Some "Red Line") None None) None w0
    = (Done tt,
       extends w0
         (own_preamble
            (MarkdownAlertDriver
               (Feed "Red Line" DEFAULT_DESC DEFAULT_LANG DEFAULT_URL)) +:+
          items_text
            (MarkdownAlertDriver
               (Feed "Red Line" DEFAULT_DESC DEFAULT_LANG DEFAULT_URL)) items +:+
          postamble_text
            (MarkdownAlertDriver
               (Feed "Red Line" DEFAULT_DESC DEFAULT_LANG DEFAULT_URL)))
         ["https://api-v3.mbta.com/alerts"]
         ([CallStart] ++ (CallItem <$> items) ++ [CallEnd])).
Proof.
  apply (main_alerts_feed sample_api
           (Args None (Some "md") None None (Some "Red Line") None None)
           None w0 sample_response [sample_alert; sample_alert]).
  - reflexivity.
  - reflexivity.
  - reflexivity.
  - reflexivity.
  - repeat constructor.
Defined.

(** ** The call protocol in every run *)

Lemma quiet_ret {A : Type} (a : A) : quiet (mret a : M A).
Proof. by intros w. Qed.

Lemma quiet_raise {A : Type} (e : exn) : quiet (raise e : M A).
Proof. by intros w. Qed.

Lemma quiet_lift {A : Type} (o : outcome A) : quiet (lift o).
Proof. by intros w. Qed.

Lemma quiet_print (s : string) : quiet (print s).
Proof. by intros w. Qed.

Lemma quiet_bind {A B : Type} (m : M A) (k : A → M B) :
  quiet m → (∀ a, quiet (k a)) → quiet (m ≫= k).
Proof.
  intros Hm Hk w. unfold mbind, M_bind. specialize (Hm w).
  destruct (m w) as [[a|e] w']; simpl in *; [|done].
  destruct (Hk a w') as [-> ->]. done.
Qed.

Lemma quiet_global {A : Type} (name : string) (x : option A) :
  quiet (global name x).
Proof. destruct x; [apply quiet_ret|apply quiet_raise]. Qed.

Ltac quiet :=
  repeat first
    [ apply quiet_print | apply quiet_lift | apply quiet_ret
    | apply quiet_raise | apply quiet_global
    | apply quiet_bind; [|intros ?] ].

Lemma quiet_print_categories (cs : list value) : quiet (print_categories cs).
Proof. induction cs as [|c cs IH]; simpl; quiet. exact IH. Qed.

Lemma logged_calls {A : Type} (c : call) (m : M A) (w : world) :
  quiet m →
  requests ((log_call c;; m) w).2 = requests w ∧
  calls ((log_call c;; m) w).2 = calls w ++ [c].
Proof.
  intros Hq. unfold mbind, M_bind, log_call.
  apply (Hq (World (stdout w) (requests w) (calls w ++ [c]))).
Qed.

(** Whatever it is given, a driver method leaves one entry in the history
    of calls and sends no request. *)
Lemma print_start_calls dr g w :
  requests (print_start dr g w).2 = requests w ∧
  calls (print_start dr g w).2 = calls w ++ [CallStart].
Proof.
  apply logged_calls.
  destruct dr; unfold MarkdownAlertDriver_print_start,
    RSSAlertDriver_print_start; quiet.
Qed.

Lemma print_item_calls dr it w :
  requests (print_item dr it w).2 = requests w ∧
  calls (print_item dr it w).2 = calls w ++ [CallItem it].
Proof.
  apply logged_calls.
  destruct dr; unfold MarkdownAlertDriver_print_item,
    RSSAlertDriver_print_item; quiet. apply quiet_print_categories.
Qed.

Lemma for_each_calls dr (records : list value) (w : world) :
  ∃ k items,
    Forall2 (λ r it, alert_item r = Done it) (take k records) items ∧
    requests (for_each (process_alert dr) records w).2 = requests w ∧
    calls (for_each (process_alert dr) records w).2
    = calls w ++ (CallItem <$> items) ∧
    ((for_each (process_alert dr) records w).1 = Done tt → k = length records).
Proof.
  revert w. induction records as [|r records IH]; intros w.
  - exists 0, []. simpl. by rewrite (right_id_L [] (++)).
  - cbn [for_each]. unfold mbind, M_bind.
    destruct (alert_item r) as [it|e] eqn:Hr.
    + rewrite (process_alert_item _ _ _ _ Hr).
      destruct (print_item_calls dr it w) as [Hreq Hcalls].
      destruct (print_item dr it w) as [[[]|e] w1]; simpl in Hreq, Hcalls.
      * destruct (IH w1) as (k & items & Hitems & Hreq' & Hcalls' & Hdone).
        exists (S k), (it :: items). simpl.
        rewrite Hreq', Hcalls', Hreq, Hcalls, <- (assoc_L (++)).
        split; [by constructor|]. repeat split; auto.
      * exists 1, [it]. simpl. rewrite take_0.
        split; [by repeat constructor|]. repeat split; auto. done.
    + rewrite (process_alert_raised _ _ _ _ Hr).
      exists 0, []. simpl. by rewrite (right_id_L [] (++)).
Qed.

(** X6: in every run of [get_alerts], whatever the driver, the response
    and the records, [print_start] is called first and once, then
    [print_item] with the items of the first records of the response, in
    their order, one call each, then [print_end], which is called exactly
    when the run returns, and only after an item for every record; no
    more than one request is sent. *)
Theorem get_alerts_protocol api g dr route time w :
  let url := "https://api-v3.mbta.com/" +:+ alerts_req_str time (API_KEY g) route in
  let res := get_alerts api g dr route time w in
  ∃ k items,
    Forall2 (λ r it, alert_item r = Done it)
      (take k (records_of (api url))) items ∧
    calls res.2
    = calls w ++ [CallStart] ++ (CallItem <$> items) ++
      match res.1 with
      | Done _ => [CallEnd]
      | Raised _ => []
      end ∧
    (requests res.2 = requests w ∨ requests res.2 = requests w ++ [url]) ∧
    (res.1 = Done tt → k = length (records_of (api url))).
Proof.
  intros url res. subst res. unfold get_alerts, mbind, M_bind.
  destruct (print_start_calls dr g w) as [Hreq1 Hcalls1].
  destruct (print_start dr g w) as [[[]|e] w1]; simpl in Hreq1, Hcalls1;
    [|exists 0, []; simpl; rewrite take_0;
      repeat split; try done; auto; constructor].
  rewrite retrieve_from_api_extends. fold url.
  remember (extends w1 "" [url] []) as w2 eqn:Hw2.
  assert (requests w2 = requests w ++ [url]) as Hreq2
    by (subst w2; unfold extends; simpl; by rewrite Hreq1).
  assert (calls w2 = calls w ++ [CallStart]) as Hcalls2
    by (subst w2; unfold extends; simpl; by rewrite (right_id_L [] (++))).
  clear Hw2.
  unfold records_of, lift.
  destruct (api url) as [response|e];
    [|exists 0, []; simpl; repeat split; try done; auto; constructor].
  destruct (subscript response "data") as [data|e];
    [|exists 0, []; simpl; repeat split; try done; auto; constructor].
  destruct (iterate data) as [records|e];
    [|exists 0, []; simpl; repeat split; try done; auto; constructor].
  destruct (for_each_calls dr records w2)
    as (k & items & Hitems & Hreq3 & Hcalls3 & Hdone).
  exists k, items.
  destruct (for_each (process_alert dr) records w2) as [[[]|e] w3];
    simpl in Hreq3, Hcalls3, Hdone.
  - rewrite print_end_text. simpl.
    rewrite Hcalls3, Hreq3, Hcalls2, Hreq2, (right_id_L [] (++)),
      <- !(assoc_L (++)).
    repeat split; auto.
  - simpl. rewrite Hcalls3, Hreq3, Hcalls2, Hreq2, (right_id_L [] (++)),
      <- !(assoc_L (++)).
    repeat split; auto.
Qed.

(** ** An item whose header is not a string *)

(** X7: when the header is not a string, as for a null [short_header],
    the Markdown driver raises [TypeError] before it writes anything, and
    the RSS driver raises [AttributeError] after it has written the
    opening [<item>] line, which stays in the output. *)
Theorem print_item_header_not_string dr h lh d e t g cs w :
  let it := Item h (VStr lh) (VStr d) e (VStr t) cs (VStr g) in
  is_str h = false →
  print_item dr it w
  = match dr with
    | MarkdownAlertDriver _ =>
        (Raised TypeError, extends w "" [] [CallItem it])
    | RSSAlertDriver _ =>
        (Raised AttributeError, extends w ("<item>" +:+ nl) [] [CallItem it])
    end.
Proof.
  intros it Hh. subst it. destruct w as [out reqs cls]. unfold extends.
  destruct dr as [self|self], h; try done; run;
    rewrite ?app_nil_r, (right_id_L [] (++)); reflexivity.
Qed.

Lemma print_item_header_not_string_witness :
  print_item (RSSAlertDriver sample_feed)
    (Item VNone (VStr "long") (VStr "") (VStr "") (VStr "t") [] (VStr "1")) w0
  = (Raised AttributeError,
     extends w0 ("<item>" +:+ nl) [] 
       [CallItem (Item VNone (VStr "long") (VStr "") (VStr "") (VStr "t") []
                       (VStr "1"))]).
Proof.
  apply (print_item_header_not_string (RSSAlertDriver sample_feed) VNone
           "long" "" (VStr "") "t" "1" [] w0).
  reflexivity.
Defined.

(** ** The stop lister *)

Lemma stop_name_inv (stop : value) (n : string) :
  stop_name stop = Some n →
  ∃ attributes,
    subscript stop "attributes" = Done attributes ∧
    subscript attributes "name" = Done (VStr n).
Proof.
  unfold stop_name. destruct stop as [| | | | |m]; try done.
  destruct (m !! "attributes") as [[| | | | |a]|] eqn:Ha; try done.
  destruct (a !! "name") as [[| | |s| |]|] eqn:Hn; try done.
  intros [= ->]. exists (VDict a). simpl. by rewrite Ha, Hn.
Qed.

(** The loop over the stops of one route writes one bullet for each. *)
Lemma for_each_stops (stops : list value) (names : list string) (w : world) :
  Forall2 (λ stop n, stop_name stop = Some n) stops names →
  for_each (λ stop,
    attributes ← lift (subscript stop "attributes");
    name ← lift (subscript attributes "name");
    line ← lift (str_add "* " name);
    print line) stops w
  = (Done tt, extends w (stop_lines names) [] []).
Proof.
  intros H. revert w. induction H as [|stop n stops names Hn _ IH]; intros w.
  - simpl. by rewrite extends_nil.
  - apply stop_name_inv in Hn as (attributes & Ha & Hname).
    cbn [for_each]. unfold mbind, M_bind at 1. unfold mbind, M_bind at 1.
    unfold lift at 1. rewrite Ha.
    unfold mbind, M_bind at 1. unfold lift at 1. rewrite Hname.
    unfold mbind, M_bind at 1. unfold lift at 1. cbn [str_add].
    unfold print at 1. rewrite IH. unfold extends. simpl.
    rewrite !(right_id_L [] (++)). do 2 f_equal. str_eq.
Qed.

Lemma stop_names_inv (response : value) (names : list string) :
  stop_names response = Some names →
  ∃ stops,
    subscript response "data" = Done (VList stops) ∧
    Forall2 (λ stop n, stop_name stop = Some n) stops names.
Proof.
  unfold stop_names. destruct response as [| | | | |m]; try done.
  destruct (m !! "data") as [[| | | |stops|]|] eqn:Hd; try done.
  intros H%mapM_Some. exists stops. simpl. by rewrite Hd.
Qed.

(** The body of the loop of [get_stoplist] over the routes. *)
#[local] Notation "'route_body' api g" :=
  (λ route : string,
     let reqstr := "stops?filter[route]=" +:+ route in
     let reqstr :=
       match API_KEY g with
       | Some key => reqstr +:+ ("&api_key=" +:+ key)
       | None => reqstr
       end in
     stoplist ← retrieve_from_api api reqstr;
     print ("## Route: " +:+ route);;
     data ← lift (subscript stoplist "data");
     stops ← lift (iterate data);
     for_each (λ stop,
       attributes ← lift (subscript stop "attributes");
       name ← lift (subscript attributes "name");
       line ← lift (str_add "* " name);
       print line) stops)
  (at level 10, api at level 9, g at level 9, only parsing).

Lemma get_stoplist_unfold api g dr routes w :
  glob_driver g = Some dr →
  preamble_ready dr g = true →
  get_stoplist api g (Some routes) w
  = match for_each (route_body api g) (split "," routes)
            (extends w (preamble_text dr g) [] [CallStart]) with
    | (Done _, w2) => print_end dr w2
    | (Raised e, w2) => (Raised e, w2)
    end.
Proof.
  intros Hdr Hready. unfold get_stoplist. rewrite Hdr.
  unfold global, mbind, M_bind, mret, M_ret.
  by rewrite (print_start_text _ _ _ Hready).
Qed.

Lemma stops_url_request (key : option string) (route : string) :
  "https://api-v3.mbta.com/" +:+
  match key with
  | Some key => ("stops?filter[route]=" +:+ route) +:+ ("&api_key=" +:+ key)
  | None => "stops?filter[route]=" +:+ route
  end = stops_url key route.
Proof. reflexivity. Qed.

(** One round for a route that is answered: the request, the heading,
    the bullets. *)
Lemma route_body_answered api g route names w :
  answered api (API_KEY g) route names →
  (route_body api g) route w
  = (Done tt,
     extends w ("## Route: " +:+ route +:+ nl +:+ stop_lines names)
       [stops_url (API_KEY g) route] []).
Proof.
  intros (response & Hapi & (stops & Hdata & Hstops)%stop_names_inv).
  cbv zeta. unfold mbind, M_bind at 1. rewrite retrieve_from_api_extends.
  assert ("https://api-v3.mbta.com/" +:+
          match API_KEY g with
          | Some key => ("stops?filter[route]=" +:+ route) +:+ ("&api_key=" +:+ key)
          | None => "stops?filter[route]=" +:+ route
          end = stops_url (API_KEY g) route) as Hurl by reflexivity.
  destruct (API_KEY g) as [key|]; rewrite Hurl, Hapi;
    unfold mbind, M_bind at 1; unfold print at 1; cbn [fst snd];
    unfold mbind, M_bind at 1; unfold lift at 1; rewrite Hdata;
    unfold mbind, M_bind at 1; unfold lift at 1; cbn [iterate];
    rewrite (for_each_stops _ _ _ Hstops); unfold extends; simpl;
    rewrite !(right_id_L [] (++)); do 2 f_equal; str_eq.
Qed.

Lemma bind_done {A B : Type} (m : M A) (k : A → M B) (a : A) (w w' : world) :
  m w = (Done a, w') → (m ≫= k) w = k a w'.
Proof. intros H. unfold mbind, M_bind. by rewrite H. Qed.

Lemma bind_raised {A B : Type} (m : M A) (k : A → M B) (e : exn) (w w' : world) :
  m w = (Raised e, w') → (m ≫= k) w = (Raised e, w').
Proof. intros H. unfold mbind, M_bind. by rewrite H. Qed.

Lemma for_each_routes api g (routes : list string)
    (lists : list (list string)) (w : world) :
  Forall2 (answered api (API_KEY g)) routes lists →
  for_each (route_body api g) routes w
  = (Done tt,
     extends w (route_sections (zip routes lists))
       (stops_url (API_KEY g) <$> routes) []).
Proof.
  intros H. revert w. induction H as [|route names routes lists Hr _ IH]; intros w.
  - simpl. by rewrite extends_nil.
  - cbn [for_each].
    rewrite (bind_done _ _ tt _ _ (route_body_answered api g route names w Hr)).
    rewrite IH, extends_extends.
    cbn [zip zip_with route_sections fmap list_fmap].
    do 2 f_equal. by rewrite !app_assoc.
Qed.

Lemma get_stoplist_answered api g dr routes lists w :
  glob_driver g = Some dr →
  preamble_ready dr g = true →
  Forall2 (answered api (API_KEY g)) (split "," routes) lists →
  get_stoplist api g (Some routes) w
  = (Done tt,
     extends w
       (preamble_text dr g +:+
        route_sections (zip (split "," routes) lists) +:+
        postamble_text dr)
       (stops_url (API_KEY g) <$> split "," routes)
       [CallStart; CallEnd]).
Proof.
  intros Hdr Hready Hroutes.
  rewrite (get_stoplist_unfold _ _ _ _ _ Hdr Hready).
  rewrite (for_each_routes _ _ _ _ _ Hroutes), print_end_text.
  rewrite !extends_extends.
  by rewrite ?(right_id_L [] (++)), ?app_assoc.
Qed.

(** X8: with a route list whose routes are all answered by well-formed
    stop lists, [get_stoplist] writes the preamble of the driver, then for
    each route between the commas, in order, the heading [## Route: ] and
    one [* ] bullet for each stop, in Markdown whatever the driver, then
    the postamble; it sends one request for each route, in order. *)
Theorem get_stoplist_sections api g dr routes lists w :
  glob_driver g = Some dr →
  preamble_ready dr g = true →
  Forall2 (answered api (API_KEY g)) (split "," routes) lists →
  get_stoplist api g (Some routes) w
  = (Done tt,
     extends w
       (preamble_text dr g +:+
        route_sections (zip (split "," routes) lists) +:+
        postamble_text dr)
       (stops_url (API_KEY g) <$> split "," routes)
       [CallStart; CallEnd]).
Proof. apply get_stoplist_answered. Qed.

Lemma get_stoplist_sections_witness :
  get_stoplist sample_stops_api sample_globals_md (Some "Red,Mattapan") w0
  = (Done tt,
     extends w0
       (preamble_text (MarkdownAlertDriver sample_feed) sample_globals_md +:+
        route_sections
          (zip (split "," "Red,Mattapan") [["Alewife"; "Davis"]; ["Ashmont"]]) +:+
        postamble_text (MarkdownAlertDriver sample_feed))
       (stops_url None <$> split "," "Red,Mattapan")
       [CallStart; CallEnd]).
Proof.
  apply (get_stoplist_sections sample_stops_api sample_globals_md
           (MarkdownAlertDriver sample_feed) "Red,Mattapan"
           [["Alewife"; "Davis"]; ["Ashmont"]] w0).
  - reflexivity.
  - reflexivity.
  - repeat constructor; eexists; (split; [reflexivity|reflexivity]).
Defined.

Lemma for_each_routes_raised api g (before after : list string) (route : string)
    (lists : list (list string)) (e : exn) (w : world) :
  Forall2 (answered api (API_KEY g)) before lists →
  api (stops_url (API_KEY g) route) = Raised e →
  for_each (route_body api g) (before ++ route :: after) w
  = (Raised e,
     extends w (route_sections (zip before lists))
       (stops_url (API_KEY g) <$> (before ++ [route])) []).
Proof.
  intros Hbefore Hapi.
  rewrite for_each_app, (for_each_routes _ _ _ _ _ Hbefore). cbn [for_each].
  erewrite bind_raised; [|cbv zeta; apply bind_raised;
    rewrite retrieve_from_api_extends, stops_url_request, Hapi; reflexivity].
  rewrite extends_extends, fmap_app, app_nil_r. done.
Qed.

(** X9: [get_stoplist] stops at the first route whose request fails, with
    the exception of the request: the sections of the routes before it
    are written, its own heading is not, no request is sent for the
    routes after it and [print_end] is not called. *)
Theorem get_stoplist_request_fails api g dr routes before route after lists e w :
  glob_driver g = Some dr →
  preamble_ready dr g = true →
  split "," routes = before ++ route :: after →
  Forall2 (answered api (API_KEY g)) before lists →
  api (stops_url (API_KEY g) route) = Raised e →
  get_stoplist api g (Some routes) w
  = (Raised e,
     extends w
       (preamble_text dr g +:+ route_sections (zip before lists))
       (stops_url (API_KEY g) <$> (before ++ [route]))
       [CallStart]).
Proof.
  intros Hdr Hready Hsplit Hbefore Hapi.
  rewrite (get_stoplist_unfold _ _ _ _ _ Hdr Hready), Hsplit.
  rewrite (for_each_routes_raised _ _ _ _ _ _ _ _ Hbefore Hapi).
  rewrite extends_extends. by rewrite ?(right_id_L [] (++)).
Qed.

Lemma get_stoplist_request_fails_witness :
  get_stoplist sample_stops_api sample_globals_md (Some "Red,Orange,Mattapan") w0
  = (Raised RequestError,
     extends w0
       (preamble_text (MarkdownAlertDriver sample_feed) sample_globals_md +:+
        route_sections (zip ["Red"] [["Alewife"; "Davis"]]))
       (stops_url None <$> (["Red"] ++ ["Orange"]))
       [CallStart]).
Proof.
  apply (get_stoplist_request_fails sample_stops_api sample_globals_md
           (MarkdownAlertDriver sample_feed) "Red,Orange,Mattapan"
           ["Red"] "Orange" ["Mattapan"] [["Alewife"; "Davis"]] RequestError w0).
  - reflexivity.
  - reflexivity.
  - reflexivity.
  - repeat constructor; eexists; (split; [reflexivity|reflexivity]).
  - reflexivity.
Defined.

(** ** Cutting the route list *)

Lemma split_nonempty (sep : ascii) (s : string) : split sep s ≠ [].
Proof.
  destruct s as [|c s]; simpl; [done|].
  destruct (decide (c = sep)); [done|]. by destruct (split sep s).
Qed.

Lemma join_cons (sep : ascii) (x : string) (l : list string) :
  l ≠ [] → join sep (x :: l) = x +:+ String sep (join sep l).
Proof. by destruct l. Qed.

Lemma join_cons_char (sep c : ascii) (h : string) (t : list string) :
  join sep (String c h :: t) = String c (join sep (h :: t)).
Proof. by destruct t. Qed.

(** X10: the route list is cut at every comma and nowhere else: the
    routes hold no comma, there is one more of them than there are
    commas, so that an empty list string gives one empty route, and put
    together again with commas they give the list string back. *)
Theorem split_routes (sep : ascii) (routes : string) :
  join sep (split sep routes) = routes ∧
  length (split sep routes) = S (count_char sep routes) ∧
  Forall (λ route, has_char sep route = false) (split sep routes).
Proof.
  induction routes as [|c s (IHj & IHl & IHf)]; [by repeat constructor|].
  pose proof (split_nonempty sep s) as Hne. cbn [split count_char].
  destruct (decide (c = sep)) as [->|Hc].
  - rewrite join_cons by done. rewrite IHj. cbn [length]. rewrite IHl.
    split; [done|]. split; [done|]. by constructor.
  - destruct (split sep s) as [|h t]; [done|].
    rewrite join_cons_char, IHj. cbn [length] in *.
    split; [done|]. split; [done|].
    apply Forall_cons in IHf as [Hh Ht]. constructor; [|done].
    simpl. by rewrite bool_decide_false, Hh.
Qed.

(** ** The offset of [created_at] *)

Lemma cut_here (c : ascii) (a b : string) :
  has_char c a = false → cut c (a +:+ String c b) = Some (a, b).
Proof.
  induction a as [|x a IH]; simpl.
  - intros _. by rewrite decide_True.
  - intros [Hx%bool_decide_eq_false Ha]%orb_false_iff.
    rewrite decide_False by done. by rewrite IH.
Qed.

Lemma cut_none (c : ascii) (s : string) : has_char c s = false → cut c s = None.
Proof.
  induction s as [|x s IH]; simpl; [done|].
  intros [Hx%bool_decide_eq_false Hs]%orb_false_iff.
  rewrite decide_False by done. by rewrite IH.
Qed.

(** The time of day comes from what is before the sign of the offset. *)
Lemma parse_isoformat_time_offset (T z : string) (sg : ascii) h mi sec us tz :
  has_char "-" T = false → has_char "+" T = false →
  sg = "+"%char ∧ has_char "-" z = false ∨ sg = "-"%char →
  parse_isoformat_time (T +:+ String sg z) = Some (h, mi, sec, us, tz) →
  parse_hh_mm_ss_ff T = Some (h, mi, sec, us).
Proof.
  intros Hm Hp Hsg. unfold parse_isoformat_time.
  destruct Hsg as [[-> Hz]| ->].
  - rewrite cut_none, cut_here by (rewrite ?has_char_app; simpl; by rewrite ?Hm, ?Hz).
    destruct (parse_hh_mm_ss_ff T) as [[[[? ?] ?] ?]|]; [|done]. simpl.
    destruct (parse_tz false z); [|done]. simpl. congruence.
  - rewrite cut_here by done.
    destruct (parse_hh_mm_ss_ff T) as [[[[? ?] ?] ?]|]; [|done]. simpl.
    destruct (parse_tz true z); [|done]. simpl. congruence.
Qed.

(** The date comes from the first ten characters. *)
Lemma parse_isoformat_date_rest (D R : string) y m d rest :
  String.length D = 10 →
  parse_isoformat_date (D +:+ R) = Some (y, m, d, rest) →
  rest = R ∧ ∀ R', parse_isoformat_date (D +:+ R') = Some (y, m, d, R').
Proof.
  intros Hlen.
  do 10 (destruct D as [|? D]; [done|]). destruct D; [|done]. clear Hlen.
  unfold parse_isoformat_date. cbn [String.append parse_digits expect].
  intros H.
  repeat first
    [ progress cbn [expect mbind option_bind parse_digits] in H |- *
    | match type of H with
      | context [Ascii.is_nat ?c] =>
          destruct (Ascii.is_nat c); cbn [mbind option_bind] in H |- *;
          [|discriminate H]
      end
    | match type of H with
      | context [decide (?a = ?b)] =>
          destruct (decide (a = b)); cbn [mbind option_bind] in H |- *;
          [|discriminate H]
      end ].
  by simplify_eq.
Qed.

Lemma fromisoformat_str_offset (D T z : string) (sep sg : ascii) (dt : datetime) :
  String.length D = 10 →
  has_char "-" T = false → has_char "+" T = false →
  sg = "+"%char ∧ has_char "-" z = false ∨ sg = "-"%char →
  fromisoformat_str (D +:+ String sep (T +:+ String sg z)) = Some dt →
  ∃ y m d h mi sec us,
    (∀ R, parse_isoformat_date (D +:+ R) = Some (y, m, d, R)) ∧
    parse_hh_mm_ss_ff T = Some (h, mi, sec, us) ∧
    dt = DateTime y m d h mi sec us (tzinfo dt).
Proof.
  intros Hlen Hm Hp Hsg. unfold fromisoformat_str.
  destruct (parse_isoformat_date (D +:+ String sep (T +:+ String sg z)))
    as [[[[y m] d] rest]|] eqn:Hdate; [|done].
  apply parse_isoformat_date_rest in Hdate as [-> Hdate]; [|done].
  cbn [mbind option_bind].
  assert (T +:+ String sg z ≠ "") as Hne by by destruct T.
  destruct (T +:+ String sg z) as [|c tstr] eqn:Ht; [done|]. rewrite <- Ht.
  destruct (parse_isoformat_time (T +:+ String sg z))
    as [[[[[h mi] sec] us] tz]|] eqn:Htime; [|done].
  apply parse_isoformat_time_offset in Htime; [|done..].
  cbn [mbind option_bind]. case_match; [|done]. intros [= <-].
  by exists y, m, d, h, mi, sec, us.
Qed.

(** X11: the offset at the end of [created_at] has no part in the date
    that is shown: two timestamps with the same date and time of day and
    different offsets give the same text, the time as it is written in
    the timestamp. *)
Theorem date_ignores_offset (D T z1 z2 : string) (sep sg1 sg2 : ascii)
    (dt1 dt2 : datetime) :
  String.length D = 10 →
  has_char "-" T = false → has_char "+" T = false →
  sg1 = "+"%char ∧ has_char "-" z1 = false ∨ sg1 = "-"%char →
  sg2 = "+"%char ∧ has_char "-" z2 = false ∨ sg2 = "-"%char →
  fromisoformat_str (D +:+ String sep (T +:+ String sg1 z1)) = Some dt1 →
  fromisoformat_str (D +:+ String sep (T +:+ String sg2 z2)) = Some dt2 →
  strftime dt1 "%m-%d-%Y %I:%M %p" = strftime dt2 "%m-%d-%Y %I:%M %p".
Proof.
  intros Hlen Hm Hp Hsg1 Hsg2 H1 H2.
  destruct (fromisoformat_str_offset _ _ _ _ _ _ Hlen Hm Hp Hsg1 H1)
    as (y & m & d & h & mi & sec & us & Hd1 & Ht1 & ->).
  destruct (fromisoformat_str_offset _ _ _ _ _ _ Hlen Hm Hp Hsg2 H2)
    as (y' & m' & d' & h' & mi' & sec' & us' & Hd2 & Ht2 & ->).
  specialize (Hd1 ""). specialize (Hd2 ""). simplify_eq. reflexivity.
Qed.

Lemma date_ignores_offset_witness :
  strftime (DateTime 2021 3 5 14 30 0 0 (Some (-18000000000)%Z))
    "%m-%d-%Y %I:%M %p"
  = strftime (DateTime 2021 3 5 14 30 0 0 (Some 0%Z)) "%m-%d-%Y %I:%M %p".
Proof.
  apply (date_ignores_offset "2021-03-05" "14:30:00" "05:00" "00:00"
           "T" "-" "+").
  - reflexivity.
  - reflexivity.
  - reflexivity.
  - right. reflexivity.
  - left. split; reflexivity.
  - vm_compute. reflexivity.
  - vm_compute. reflexivity.
Defined.

(** ** Escaping and line breaks lose nothing *)

Lemma escape_char_app_inj (a b : ascii) (x y : string) :
  escape_char a +:+ x = escape_char b +:+ y → a = b ∧ x = y.
Proof.
  unfold escape_char.
  repeat case_decide; subst; cbn [String.append]; intros Heq;
    by simplify_eq.
Qed.

Lemma spec_escape_inj (s1 s2 : string) :
  spec_escape s1 = spec_escape s2 → s1 = s2.
Proof.
  revert s2. induction s1 as [|a s1 IH]; intros [|b s2]; cbn [spec_escape].
  - done.
  - unfold escape_char. repeat case_decide; done.
  - unfold escape_char. repeat case_decide; done.
  - intros [-> ->%IH]%escape_char_app_inj. done.
Qed.

Lemma escape_char_no_lt (c : ascii) : has_char "<" (escape_char c) = false.
Proof.
  unfold escape_char. repeat case_decide; subst; try done.
  simpl. by rewrite bool_decide_false.
Qed.

Lemma spec_escape_no_lt (s : string) : has_char "<" (spec_escape s) = false.
Proof.
  induction s as [|c s IH]; [done|]. cbn [spec_escape].
  by rewrite has_char_app, escape_char_no_lt, IH.
Qed.

(** Two texts without [c], each followed by [c], are equal when what
    they begin is. *)
Lemma app_sep_inj (c : ascii) (a b x y : string) :
  has_char c a = false → has_char c b = false →
  a +:+ String c x = b +:+ String c y → a = b ∧ x = y.
Proof.
  revert b. induction a as [|p a IH]; intros [|r b]; simpl.
  - intros _ _ [= ->]. done.
  - intros _ [Hr%bool_decide_eq_false _]%orb_false_iff [= <-]. done.
  - intros [Hp%bool_decide_eq_false _]%orb_false_iff _ [= ->]. done.
  - intros [_ Ha]%orb_false_iff [_ Hb]%orb_false_iff [= -> H].
    destruct (IH b Ha Hb H) as [-> ->]. done.
Qed.

(** X12: escaping loses nothing: two texts that differ are still
    different once escaped, and two items that differ in their header
    only are written differently by the RSS driver. *)
Theorem html_escape_faithful :
  (∀ s1 s2, html_escape s1 = html_escape s2 → s1 = s2) ∧
  (∀ self h1 h2 lh d e t g w,
     stdout (print_item (RSSAlertDriver self)
               (Item (VStr h1) (VStr lh) (VStr d) e (VStr t) [] (VStr g)) w).2
     = stdout (print_item (RSSAlertDriver self)
                 (Item (VStr h2) (VStr lh) (VStr d) e (VStr t) [] (VStr g)) w).2 →
     h1 = h2).
Proof.
  split.
  - intros s1 s2. rewrite !html_escape_spec. apply spec_escape_inj.
  - intros self h1 h2 lh d e t g w.
    rewrite !(print_item_strings (RSSAlertDriver self) _ lh d e t g []).
    unfold extends, rendered, rss_item. cbn [snd stdout].
    intros Heq%(inj (String.app _)).
    unfold nl in Heq. cbn [String.append] in Heq.
    simplify_eq.
    match goal with H : _ +:+ _ = _ +:+ _ |- _ =>
      apply app_sep_inj in H as [?%spec_escape_inj _];
        [done|apply spec_escape_no_lt..]
    end.
Qed.

Lemma html_escape_faithful_witness : "a<b" = "a<b".
Proof.
  apply (proj1 html_escape_faithful "a<b" "a<b"). reflexivity.
Defined.

(** X13: in the description the Markdown driver writes, no line break
    stands alone: every run of newlines has an even length, whatever the
    description; and two descriptions that differ are written
    differently. *)
Theorem markdown_breaks_doubled :
  (∀ d, even_runs false (replace nl (nl +:+ nl) d) = true) ∧
  (∀ d1 d2, replace nl (nl +:+ nl) d1 = replace nl (nl +:+ nl) d2 → d1 = d2).
Proof.
  split.
  - intros d. rewrite replace_newlines.
    induction d as [|c d IH]; [done|]. cbn [spec_double_newlines].
    case_decide as Hc.
    + unfold nl. cbn [String.append even_runs].
      by rewrite !decide_True by done.
    + cbn [even_runs]. by rewrite decide_False by done.
  - intros d1 d2. rewrite !replace_newlines. revert d2.
    induction d1 as [|a d1 IH]; intros [|b d2]; cbn [spec_double_newlines];
      unfold nl; repeat case_decide; subst; cbn [String.append];
      intros Heq; simplify_eq; try done.
    + f_equal. by apply IH.
    + f_equal. by apply IH.
Qed.

(** ** The script on stops *)

(** X14: run as a script on stops with a known output format and a route
    list whose routes are all answered, the program writes the preamble
    of the chosen driver with the title and the description of the
    command line, the Markdown sections of the routes, and the postamble
    of the chosen driver; with the RSS driver the sections stand between
    the [<channel>] tags as they are. *)
Theorem main_stops_sections api args key w routes lists :
  let dr := script_driver args in
  known_output (arg_output args) = true →
  arg_datatype args = Some "stops" →
  arg_routes args = Some routes →
  Forall2 (answered api key) (split "," routes) lists →
  main api args key w
  = (Done tt,
     extends w
       (own_preamble dr +:+
        route_sections (zip (split "," routes) lists) +:+
        postamble_text dr)
       (stops_url key <$> split "," routes)
       [CallStart; CallEnd]).
Proof.
  intros dr Hout Hdt Hroutes Hanswered.
  set (g := Globals (Some (default DEFAULT_TITLE (arg_title args)))
                    (Some (default DEFAULT_DESC (arg_description args)))
                    (Some dr) key).
  assert (main api args key w = get_stoplist api g (Some routes) w) as ->.
  { unfold main, g, dr, script_driver, script_feed. rewrite Hdt, Hroutes.
    destruct (arg_output args) as [fmt|]; [|done]. simpl in Hout.
    apply orb_true_iff in Hout
      as [->%bool_decide_eq_true| ->%bool_decide_eq_true]; done. }
  assert (preamble_ready dr g = true) as Hready.
  { unfold dr, script_driver. by repeat case_match. }
  rewrite (get_stoplist_answered api g dr routes lists w eq_refl Hready Hanswered).
  assert (preamble_text dr g = own_preamble dr) as ->; [|done].
  unfold dr, script_driver. by repeat case_match.
Qed.

Lemma main_stops_sections_witness :
  main sample_stops_api
    (Args (Some "stops") (Some "rss") (Some "Red,Mattapan") None None None None)
    None w0
  = (Done tt,
     extends w0
       (own_preamble (RSSAlertDriver sample_feed) +:+
        route_sections
          (zip (split "," "Red,Mattapan") [["Alewife"; "Davis"]; ["Ashmont"]]) +:+
        postamble_text (RSSAlertDriver sample_feed))
       (stops_url None <$> split "," "Red,Mattapan")
       [CallStart; CallEnd]).
Proof.
  apply (main_stops_sections sample_stops_api
           (Args (Some "stops") (Some "rss") (Some "Red,Mattapan") None None
                 None None)
           None w0 "Red,Mattapan" [["Alewife"; "Davis"]; ["Ashmont"]]).
  - reflexivity.
  - reflexivity.
  - reflexivity.
  - repeat constructor; eexists; (split; [reflexivity|reflexivity]).
Defined.
